(** * convert2webp: the temp-file backed buffer conversion pipeline

    A shallow embedding of [src/temp_path.js], [src/cwebp.js],
    [src/webpconverter.js] and [src/buffer_utils.js].  The JavaScript code is
    a thin orchestration layer over the Node.js runtime ([path], [fs],
    [child_process], [Buffer]); the runtime is modelled first (part I, for a
    POSIX host without symbolic links), the repository's functions are then
    translated one by one (part II), and the properties are stated and proved
    in part III. *)

From Stdlib Require Import String Ascii ZArith NArith List Bool Lia.
From stdpp Require Import base option list strings pretty gmap.
Import ListNotations.

Local Open Scope string_scope.
Local Open Scope list_scope.

Abbreviation byte := Byte.byte.

(** ** I.1  JavaScript strings *)

Module JsString.

(** [s.split(c)] for a one-character separator: never the empty array,
    and two adjacent separators enclose an empty string. *)
Fixpoint split_on (sep : ascii) (s : string) : list string :=
  match s with
  | EmptyString => [EmptyString]
  | String c s' =>
      if Ascii.eqb c sep then EmptyString :: split_on sep s'
      else match split_on sep s' with
           | [] => [String c EmptyString]
           | h :: t => String c h :: t
           end
  end.

(** [arr.join(sep)] *)
Definition join (sep : string) (l : list string) : string :=
  String.concat sep l.

(** does the character occur in the string *)
Fixpoint mem (c : ascii) (s : string) : bool :=
  match s with
  | EmptyString => false
  | String c' s' => Ascii.eqb c' c || mem c s'
  end.

Fixpoint last_char (s : string) : option ascii :=
  match s with
  | EmptyString => None
  | String c EmptyString => Some c
  | String _ s' => last_char s'
  end.

Definition first_char (s : string) : option ascii :=
  match s with
  | EmptyString => None
  | String c _ => Some c
  end.

Definition is_empty (s : string) : bool :=
  match s with EmptyString => true | _ => false end.

Fixpoint all_chars (p : ascii -> bool) (s : string) : bool :=
  match s with
  | EmptyString => true
  | String c s' => p c && all_chars p s'
  end.

(** [c.repeat(n)] for a one-character string *)
Fixpoint repeated (n : nat) (c : ascii) : string :=
  match n with
  | O => EmptyString
  | S n' => String c (repeated n' c)
  end.

(** the character with code 0 *)
Definition nul : ascii := Ascii.zero.

End JsString.

(** ** I.2  [path] (POSIX flavour)

    [require('path')] is [path.posix] on every platform but win32, where it
    is [path.win32] (two separators, drive letters).  This module is
    [path.posix]: the model is that of a POSIX host. *)

Module Path.
Import JsString.

Definition sep : ascii := "/"%char.

(** One step of [normalizeString]: the segments kept so far are held as a
    stack, most recent first. *)
Definition norm_step (allowAboveRoot : bool) (stk : list string) (seg : string)
  : list string :=
  if String.eqb seg "" || String.eqb seg "." then stk
  else if String.eqb seg ".." then
    match stk with
    | [] => if allowAboveRoot then [".."] else []
    | top :: rest =>
        if String.eqb top ".."
        then (if allowAboveRoot then ".." :: stk else stk)
        else rest
    end
  else seg :: stk.

Definition normalizeString (p : string) (allowAboveRoot : bool) : string :=
  join "/" (rev (fold_left (norm_step allowAboveRoot) (split_on sep p) [])).

Definition isAbsolute (p : string) : bool :=
  match first_char p with Some c => Ascii.eqb c sep | None => false end.

Definition trailingSeparator (p : string) : bool :=
  match last_char p with Some c => Ascii.eqb c sep | None => false end.

(** [path.normalize] *)
Definition normalize (p : string) : string :=
  if is_empty p then "."
  else
    let abs := isAbsolute p in
    let p' := normalizeString p (negb abs) in
    if is_empty p' then
      (if abs then "/" else if trailingSeparator p then "./" else ".")
    else
      let p'' := if trailingSeparator p then p' +:+ "/" else p' in
      if abs then "/" +:+ p'' else p''.

(** [path.join(...args)]: the non-empty arguments are glued with "/" and
    the result is normalised. *)
Definition join_paths (args : list string) : string :=
  match List.filter (fun a => negb (is_empty a)) args with
  | [] => "."
  | parts => normalize (join "/" parts)
  end.

(** the text after the last separator *)
Definition basename (p : string) : string :=
  List.last (split_on sep p) "".

(** a file name proper: one non-empty segment other than "." and ".." *)
Definition plain_segment (n : string) : bool :=
  negb (is_empty n) && negb (mem sep n)
  && negb (String.eqb n ".") && negb (String.eqb n "..").

End Path.

(** ** I.3  [Buffer] and base64 *)

Module Buffer.
Import JsString.

Definition byte_of_N (n : N) : byte := byte_of_ascii (ascii_of_N n).
Definition N_of_byte (b : byte) : N := N_of_ascii (ascii_of_byte b).

Definition in_range (lo hi : ascii) (c : ascii) : bool :=
  (N_of_ascii lo <=? N_of_ascii c)%N && (N_of_ascii c <=? N_of_ascii hi)%N.

(** The decoder's table: the standard alphabet and, as Node accepts them,
    the two URL-safe characters. *)
Definition unbase64 (c : ascii) : option N :=
  let n := N_of_ascii c in
  if in_range "A" "Z" c then Some (n - 65)%N
  else if in_range "a" "z" c then Some (n - 97 + 26)%N
  else if in_range "0" "9" c then Some (n - 48 + 52)%N
  else if Ascii.eqb c "+" || Ascii.eqb c "-" then Some 62%N
  else if Ascii.eqb c "/" || Ascii.eqb c "_" then Some 63%N
  else None.

(** Characters outside the table are skipped; "=" ends the input. *)
Fixpoint sextets (s : string) : list N :=
  match s with
  | EmptyString => []
  | String c s' =>
      if Ascii.eqb c "=" then []
      else match unbase64 c with
           | Some v => v :: sextets s'
           | None => sextets s'
           end
  end.

Fixpoint bytes_of_sextets (l : list N) : list byte :=
  match l with
  | a :: b :: c :: d :: rest =>
      byte_of_N (N.lor (N.shiftl a 2) (N.shiftr b 4))
      :: byte_of_N (N.lor (N.shiftl (N.land b 15) 4) (N.shiftr c 2))
      :: byte_of_N (N.lor (N.shiftl (N.land c 3) 6) d)
      :: bytes_of_sextets rest
  | [a; b; c] =>
      [byte_of_N (N.lor (N.shiftl a 2) (N.shiftr b 4));
       byte_of_N (N.lor (N.shiftl (N.land b 15) 4) (N.shiftr c 2))]
  | [a; b] => [byte_of_N (N.lor (N.shiftl a 2) (N.shiftr b 4))]
  | _ => []
  end.

(** [Buffer.from(s, 'base64')]: total, it raises on no string. *)
Definition from_base64 (s : string) : list byte :=
  bytes_of_sextets (sextets s).

Definition alphabet : string :=
  "ABCDEFGHIJKLMNOPQRSTUVWXYZabcdefghijklmnopqrstuvwxyz0123456789+/".

Definition digit (n : N) : ascii :=
  match String.get (N.to_nat (N.land n 63)) alphabet with
  | Some c => c
  | None => "="%char
  end.

(** [buf.toString('base64')] *)
Fixpoint to_base64 (l : list byte) : string :=
  match l with
  | x :: y :: z :: rest =>
      let a := N_of_byte x in let b := N_of_byte y in let c := N_of_byte z in
      String (digit (N.shiftr a 2))
        (String (digit (N.lor (N.shiftl (N.land a 3) 4) (N.shiftr b 4)))
           (String (digit (N.lor (N.shiftl (N.land b 15) 2) (N.shiftr c 6)))
              (String (digit c) (to_base64 rest))))
  | [x; y] =>
      let a := N_of_byte x in let b := N_of_byte y in
      String (digit (N.shiftr a 2))
        (String (digit (N.lor (N.shiftl (N.land a 3) 4) (N.shiftr b 4)))
           (String (digit (N.shiftl (N.land b 15) 2)) "="))
  | [x] =>
      let a := N_of_byte x in
      String (digit (N.shiftr a 2))
        (String (digit (N.shiftl (N.land a 3) 4)) "==")
  | [] => EmptyString
  end.

(** the bytes of an ASCII text, for writing examples *)
Definition of_text (s : string) : list byte :=
  map byte_of_ascii (list_ascii_of_string s).

(** [Buffer.byteLength(s, 'utf8')] for the strings of this model, whose
    code units are below 256: one byte for a code unit below 128, two from
    128 on. *)
Fixpoint byteLength (s : string) : N :=
  match s with
  | EmptyString => 0%N
  | String c s' =>
      ((if (N_of_ascii c <? 128)%N then 1 else 2) + byteLength s')%N
  end.

(** What a strict decoder would accept: whole groups of four characters
    of the standard alphabet, the last group padded with at most two "=". *)
Definition standard_char (c : ascii) : bool :=
  in_range "A" "Z" c || in_range "a" "z" c || in_range "0" "9" c
  || Ascii.eqb c "+" || Ascii.eqb c "/".

Fixpoint well_formed_groups (s : string) : bool :=
  match s with
  | EmptyString => true
  | String a (String b (String c (String d rest))) =>
      standard_char a && standard_char b
      && (if is_empty rest
          then (standard_char c && (standard_char d || Ascii.eqb d "="))
               || (Ascii.eqb c "=" && Ascii.eqb d "=")
          else standard_char c && standard_char d)
      && well_formed_groups rest
  | _ => false
  end.

End Buffer.

(** ** I.3b  The [uuid] package

    [uuid()] (version 4) returns the canonical text form of a random
    identifier: 36 characters, lower-case hexadecimal digits in groups of
    8-4-4-4-12 separated by "-". *)

Module Uuid.
Import JsString.

Definition is_hex (c : ascii) : bool :=
  Buffer.in_range "0" "9" c || Buffer.in_range "a" "f" c.

(** [true] stands for a hexadecimal digit, [false] for the dash *)
Fixpoint matches (shape : list bool) (s : string) : bool :=
  match shape, s with
  | [], EmptyString => true
  | b :: shape', String c s' =>
      (if b then is_hex c else Ascii.eqb c "-") && matches shape' s'
  | _, _ => false
  end.

Definition shape : list bool :=
  repeat true 8 ++ [false] ++ repeat true 4 ++ [false] ++ repeat true 4
  ++ [false] ++ repeat true 4 ++ [false] ++ repeat true 12.

Definition is_uuid (s : string) : bool := matches shape s.

End Uuid.

(** ** I.3c  Numbers as text

    [String(x)] and a template literal print a number by
    [Number::toString]: the shortest digit string that reads back as the
    same number, written out in full below 10^21 and with an exponent from
    there on.  The numbers met here have integer values; up to 2^53 the
    digits are those of the integer itself. *)

Module JsNumber.
Local Open Scope Z_scope.

(** the number nearest to a positive integer, ties to the even
    significand; [None] is Infinity *)
Definition nearest (a : Z) : option Z :=
  let e := Z.log2 a + 1 - 53 in
  if e <=? 0 then Some a
  else
    let m := Z.shiftr a e in
    let r := Z.land a (Z.ones e) in
    let half := Z.shiftl 1 (e - 1) in
    let m' := if (half <? r) || ((r =? half) && Z.odd m) then m + 1 else m in
    let x := Z.shiftl m' e in
    if x <? 2 ^ 1024 then Some x else None.

(** the integers that round to the number [x], above [2 ^ 53]: an
    interval, its ends included when the significand of [x] is even *)
Definition rounding_interval (x : Z) : Z * Z * bool :=
  let e := Z.log2 x + 1 - 53 in
  let m := Z.shiftr x e in
  let above := Z.shiftl 1 (e - 1) in
  let below := if m =? 2 ^ 52 then Z.shiftl 1 (e - 2) else above in
  (x - below, x + above, Z.even m).

(** the [k]-digit [s] for which [s * 10 ^ p] rounds to [x] and is
    nearest to it *)
Definition candidate (x : Z) (k p : Z) : option Z :=
  let '(lo, hi, closed) := rounding_interval x in
  let t := 10 ^ p in
  let smin := if closed then (lo + t - 1) / t else lo / t + 1 in
  let smax := if closed then hi / t else (hi + t - 1) / t - 1 in
  let smin := Z.max smin (10 ^ (k - 1)) in
  let smax := Z.min smax (10 ^ k - 1) in
  if smax <? smin then None
  else Some (Z.max smin (Z.min smax ((2 * x + t) / (2 * t)))).

Definition closer (x : Z) (a b : option (Z * Z)) : option (Z * Z) :=
  match a, b with
  | Some (s, p), Some (s', p') =>
      if Z.abs (s * 10 ^ p - x) <=? Z.abs (s' * 10 ^ p' - x) then a else b
  | Some _, None => a
  | None, _ => b
  end.

(** the shortest digit string: the least [k], from 1 to 17, that has a
    candidate; [d] is the number of digits of [x] *)
Fixpoint shortest (x d : Z) (k : Z) (fuel : nat) : Z * Z :=
  match fuel with
  | O => (x, 0)
  | S fuel' =>
      let at_p p := if p <? 0 then None
                    else option_map (fun s => (s, p)) (candidate x k p) in
      match closer x (at_p (d - k)) (at_p (d - k + 1)) with
      | Some sp => sp
      | None => shortest x d (k + 1) fuel'
      end
  end.

Fixpoint zeros (n : nat) : string :=
  match n with O => "" | S n' => String "0" (zeros n') end.

(** [Number::toString] of a positive integer-valued number *)
Definition digits (x : Z) : string :=
  if x <=? 2 ^ 53 then pretty x
  else
    let d := Z.of_nat (String.length (pretty x)) in
    let '(s, p) := shortest x d 1 17 in
    let text := pretty s in
    let n := Z.of_nat (String.length text) + p in
    if n <=? 21 then text +:+ zeros (Z.to_nat p)
    else
      match text with
      | String c EmptyString => String c ("e+" +:+ pretty (n - 1))
      | String c rest => String c ("." +:+ rest +:+ "e+" +:+ pretty (n - 1))
      | EmptyString => text
      end.

(** [String(n)] for the number nearest to the integer [n] *)
Definition to_string (n : Z) : string :=
  if n =? 0 then "0"
  else
    let sign := if n <? 0 then "-" else "" in
    match nearest (Z.abs n) with
    | Some x => sign +:+ digits x
    | None => sign +:+ "Infinity"
    end.

End JsNumber.

(** ** I.4  Values, errors and results *)

(** The primitive JavaScript values an optional argument can hold:
    [undefined], [null], the booleans, the numbers of integer value
    ([VNum n] is the number nearest to [n]), [NaN] and the strings.  Objects
    ([Buffer] and [URL], which [fs] takes for a path, among them) are not
    part of the model. *)
Inductive jsval :=
| VUndefined
| VNull
| VBool (b : bool)
| VNum (n : Z)
| VNaN
| VStr (s : string).

(** [ToBoolean] *)
Definition truthy (v : jsval) : bool :=
  match v with
  | VUndefined | VNull | VNaN => false
  | VBool b => b
  | VNum n => negb (n =? 0)%Z
  | VStr s => negb (JsString.is_empty s)
  end.

Inductive errno := ENOENT | ENOTDIR | EISDIR | EEXIST | ERR_FS_EISDIR.
Inductive syscall := sys_open | sys_read | sys_lstat | sys_rm | sys_mkdir.

(** What a rejected promise (or a throw) carries. *)
Inductive error :=
| SystemError (code : errno) (call : syscall) (path : string)
| ChildError (exit_code : Z) (stdout stderr : string)
| SpawnError (code : string) (file : string)
| SignalError (signal : string) (stdout stderr : string)
| TypeError (code : string)
| RangeError (code : string)
| PlainError (message : string).

Inductive result (A : Type) :=
| Ok (a : A)
| Err (e : error).
Arguments Ok {A} a.
Arguments Err {A} e.

Definition is_ok {A} (r : result A) : bool :=
  match r with Ok _ => true | Err _ => false end.

Definition map_result {A B} (f : A -> B) (r : result A) : result B :=
  match r with Ok a => Ok (f a) | Err e => Err e end.

(** ** I.5  [fs]: a tree of directories and regular files *)

Module Fs.
Import JsString.

Inductive node :=
| File (data : list byte)
| Dir.

(** A location is the list of names leading from the root to a node; the
    root itself is always a directory. *)
Abbreviation loc := (list string).
Abbreviation tree := (gmap (list string) node).

Definition node_at (t : tree) (l : loc) : option node :=
  match l with
  | [] => Some Dir
  | _ => t !! l
  end.

Definition components (p : string) : list string :=
  List.filter (fun s => negb (String.eqb s "" || String.eqb s "."))
         (split_on Path.sep p).

Definition step (l : loc) (c : string) : loc :=
  if String.eqb c ".." then removelast l else l ++ [c].

(** Path walk: every location passed through has to be a directory. *)
Fixpoint walk (t : tree) (l : loc) (cs : list string) : errno + loc :=
  match cs with
  | [] => inr l
  | c :: cs' =>
      match node_at t l with
      | None => inl ENOENT
      | Some (File _) => inl ENOTDIR
      | Some Dir => walk t (step l c) cs'
      end
  end.

(** A path that ends in "/", "/." or "/.." can only name a directory. *)
Definition names_directory (p : string) : bool :=
  let s := List.last (split_on Path.sep p) "" in
  String.eqb s "" || String.eqb s "." || String.eqb s "..".

Definition start (cwd : loc) (p : string) : loc :=
  if Path.isAbsolute p then [] else cwd.

(** Where a path leads and what is there ([None]: nothing yet). *)
Definition resolve (t : tree) (cwd : loc) (p : string)
  : errno + (loc * option node) :=
  if is_empty p then inl ENOENT
  else match walk t (start cwd p) (components p) with
       | inl e => inl e
       | inr l =>
           match node_at t l with
           | Some (File d) =>
               if names_directory p then inl ENOTDIR
               else inr (l, Some (File d))
           | n => inr (l, n)
           end
       end.

(** [fs.existsSync] *)
Definition exists_at (t : tree) (cwd : loc) (p : string) : bool :=
  match resolve t cwd p with
  | inr (_, Some _) => true
  | _ => false
  end.

Definition is_directory (t : tree) (cwd : loc) (p : string) : bool :=
  match resolve t cwd p with
  | inr (_, Some Dir) => true
  | _ => false
  end.

(** [fs.writeFile(p, data)]: open for writing, create or truncate. *)
Definition writeFile (t : tree) (cwd : loc) (p : string) (data : list byte)
  : tree * result unit :=
  match resolve t cwd p with
  | inl e => (t, Err (SystemError e sys_open p))
  | inr (_, Some Dir) => (t, Err (SystemError EISDIR sys_open p))
  | inr (l, Some (File _)) => (<[l := File data]> t, Ok tt)
  | inr (l, None) =>
      if names_directory p then (t, Err (SystemError EISDIR sys_open p))
      else (<[l := File data]> t, Ok tt)
  end.

(** [fs.readFile(p)] *)
Definition readFile (t : tree) (cwd : loc) (p : string) : result (list byte) :=
  match resolve t cwd p with
  | inl e => Err (SystemError e sys_open p)
  | inr (_, None) => Err (SystemError ENOENT sys_open p)
  | inr (_, Some Dir) => Err (SystemError EISDIR sys_read p)
  | inr (_, Some (File d)) => Ok d
  end.

(** [fs.rm(p, { force: true })]: not recursive.  [force] silences the
    "no such file" answer of the initial [lstat] and nothing else. *)
Definition rm_force (t : tree) (cwd : loc) (p : string) : tree * result unit :=
  match resolve t cwd p with
  | inl ENOENT => (t, Ok tt)
  | inl e => (t, Err (SystemError e sys_lstat p))
  | inr (_, None) => (t, Ok tt)
  | inr (_, Some Dir) => (t, Err (SystemError ERR_FS_EISDIR sys_rm p))
  | inr (l, Some (File _)) => (delete l t, Ok tt)
  end.

(** [mkdir -p] from a directory [l] along the remaining components; what
    was created before a failure stays. *)
Fixpoint mkdirs (t : tree) (l : loc) (cs : list string) : tree * option errno :=
  match cs with
  | [] => (t, None)
  | c :: cs' =>
      let l' := step l c in
      match node_at t l' with
      | Some Dir => mkdirs t l' cs'
      | Some (File _) => (t, Some (match cs' with [] => EEXIST | _ => ENOTDIR end))
      | None => mkdirs (<[l' := Dir]> t) l' cs'
      end
  end.

(** [fs.mkdirSync(p, { recursive: true })] *)
Definition mkdirSync (t : tree) (cwd : loc) (p : string) : tree * result unit :=
  if is_empty p then (t, Err (SystemError ENOENT sys_mkdir p))
  else match node_at t (start cwd p) with
       | Some Dir =>
           match mkdirs t (start cwd p) (components p) with
           | (t', Some e) => (t', Err (SystemError e sys_mkdir p))
           | (t', None) => (t', Ok tt)
           end
       | Some (File _) => (t, Err (SystemError ENOTDIR sys_mkdir p))
       | None => (t, Err (SystemError ENOENT sys_mkdir p))
       end.

End Fs.

(** ** I.6  The world a call runs in *)

(** What the operating system reports about a child process: it could not
    be started, it exited with a status, or a signal ended it; [stdout] and
    [stderr] are the texts received from it. *)
Inductive outcome :=
| SpawnFailed (code : string)
| Exited (status : Z) (stdout stderr : string)
| Killed (signal : string) (stdout stderr : string).

(** [child_process.spawn] checks its arguments before it starts anything:
    the file name is not empty, and neither it nor an argument holds the
    character with code 0. *)
Definition spawn_arguments_ok (file : string) (args : list string) : bool :=
  negb (JsString.mem JsString.nul file)
  && negb (JsString.is_empty file)
  && forallb (fun a => negb (JsString.mem JsString.nul a)) args.

(** the default [maxBuffer] of [execFile], in bytes, for each of the two
    streams: 1024 * 1024 *)
Definition maxBuffer : N := 1048576.

Definition overruns (stdout stderr : string) : bool :=
  (maxBuffer <? Buffer.byteLength stdout)%N
  || (maxBuffer <? Buffer.byteLength stderr)%N.

(** The host: [process.platform], [process.arch], [__dirname] of [src/],
    [os.tmpdir()], the working directory, the identifiers [uuid()] hands out
    (the n-th call gets [uuid_v4 n]) and the executables, taken as they
    are: a binary maps its arguments and the file tree to a new file tree
    and an outcome, under the regime of [execFile] (which ends a child that
    overruns [maxBuffer]). *)
Record host := {
  platform : string;
  arch : string;
  dirname : string;
  tmpdir : string;
  cwd : Fs.loc;
  uuid_v4 : nat -> string;
  run : string -> list string -> Fs.tree -> Fs.tree * outcome
}.

(** Every call into the runtime is recorded, in order, whether it succeeds
    or not. *)
Inductive event :=
| EvUuid (id : string)
| EvMkdir (path : string)
| EvWriteFile (path : string) (data : list byte)
| EvReadFile (path : string)
| EvRm (path : string)
| EvExecFile (file : string) (args : list string)
| EvConsoleWarn (text : string)
| EvConsoleError (text : string) (e : error).

Record world := {
  fs : Fs.tree;
  drawn : nat;
  trace : list event
}.

Definition log (ev : event) (w : world) : world :=
  {| fs := fs w; drawn := drawn w; trace := trace w ++ [ev] |}.

Definition with_fs (t : Fs.tree) (w : world) : world :=
  {| fs := t; drawn := drawn w; trace := trace w |}.

(** Computations: a world in, a world and a value or an error out. *)
Definition M (A : Type) : Type := world -> world * result A.

Definition ret {A} (a : A) : M A := fun w => (w, Ok a).
Definition throw {A} (e : error) : M A := fun w => (w, Err e).

Definition bind {A B} (m : M A) (k : A -> M B) : M B :=
  fun w => match m w with
           | (w', Ok a) => k a w'
           | (w', Err e) => (w', Err e)
           end.

(** [try { m } catch (error) { handler }] *)
Definition try_catch {A} (m : M A) (handler : error -> M A) : M A :=
  fun w => match m w with
           | (w', Ok a) => (w', Ok a)
           | (w', Err e) => handler e w'
           end.

(** [try { m } finally { cleanup }]: the cleanup always runs; when it
    throws, its error is the one that leaves the statement. *)
Definition try_finally {A} (m : M A) (cleanup : M unit) : M A :=
  fun w => match m w with
           | (w', r) =>
               match cleanup w' with
               | (w'', Ok _) => (w'', r)
               | (w'', Err e) => (w'', Err e)
               end
           end.

Notation "'let*' x ':=' m 'in' k" := (bind m (fun x => k))
  (at level 10, x pattern, m at level 100, k at level 200).

(** * II  The program *)

Section Program.

Variable h : host.

(** ** II.1  The runtime calls the program makes *)

(** [uuid()] *)
Definition uuid : M string :=
  fun w =>
    let id := uuid_v4 h (drawn w) in
    ({| fs := fs w; drawn := S (drawn w); trace := trace w ++ [EvUuid id] |},
     Ok id).

(** [String(v)], also what a template literal prints *)
Definition js_to_string (v : jsval) : string :=
  match v with
  | VUndefined => "undefined"
  | VNull => "null"
  | VBool true => "true"
  | VBool false => "false"
  | VNum n => JsNumber.to_string n
  | VNaN => "NaN"
  | VStr s => s
  end.

(** the argument check of [fs] and [path] functions *)
Definition as_path (v : jsval) : M string :=
  match v with
  | VStr s => ret s
  | _ => throw (TypeError "ERR_INVALID_ARG_TYPE")
  end.

Definition fs_mkdirSync (v : jsval) : M unit :=
  let* p := as_path v in
  fun w =>
    let (t, r) := Fs.mkdirSync (fs w) (cwd h) p in
    (with_fs t (log (EvMkdir p) w), r).

Definition fs_writeFile (p : string) (data : list byte) : M unit :=
  fun w =>
    let (t, r) := Fs.writeFile (fs w) (cwd h) p data in
    (with_fs t (log (EvWriteFile p data) w), r).

Definition fs_readFile (p : string) : M (list byte) :=
  fun w => (log (EvReadFile p) w, Fs.readFile (fs w) (cwd h) p).

Definition fs_rm (p : string) : M unit :=
  fun w =>
    let (t, r) := Fs.rm_force (fs w) (cwd h) p in
    (with_fs t (log (EvRm p) w), r).

Definition console_warn (text : string) : M unit :=
  fun w => (log (EvConsoleWarn text) w, Ok tt).

Definition console_error (text : string) (e : error) : M unit :=
  fun w => (log (EvConsoleError text e) w, Ok tt).

(** [path.join(dir, name)] with [dir] of any type *)
Definition path_join (dir : jsval) (name : string) : M string :=
  let* d := as_path dir in
  ret (Path.join_paths [d; name]).

(** [promisify(child_process.execFile)] with its default options: throws
    when [spawn] refuses the arguments; otherwise runs the child and
    resolves when it exits with status zero, neither stream having
    overrun [maxBuffer], and rejects in every other case. *)
Definition execFile (file : string) (args : list string)
  : M (string * string) :=
  fun w =>
    let w0 := log (EvExecFile file args) w in
    if spawn_arguments_ok file args then
      let (t, o) := run h file args (fs w) in
      let w' := with_fs t w0 in
      match o with
      | SpawnFailed code => (w', Err (SpawnError code file))
      | Exited status stdout stderr =>
          if overruns stdout stderr
          then (w', Err (RangeError "ERR_CHILD_PROCESS_STDIO_MAXBUFFER"))
          else if (status =? 0)%Z then (w', Ok (stdout, stderr))
          else (w', Err (ChildError status stdout stderr))
      | Killed signal stdout stderr =>
          if overruns stdout stderr
          then (w', Err (RangeError "ERR_CHILD_PROCESS_STDIO_MAXBUFFER"))
          else (w', Err (SignalError signal stdout stderr))
      end
    else (w0, Err (TypeError "ERR_INVALID_ARG_VALUE")).

(** ** II.2  [src/temp_path.js] *)

(** [customPath || path.join(os.tmpdir(), 'webp-converter-js')] *)
Definition targetPath (customPath : jsval) : jsval :=
  if truthy customPath then customPath
  else VStr (Path.join_paths [tmpdir h; "webp-converter-js"]).

Definition getTempPath (customPath : jsval) : M jsval :=
  let targetPath := targetPath customPath in
  let* _ :=
    try_catch
      (fs_mkdirSync targetPath)
      (fun error =>
         let* _ := console_error
                     ("Failed to create temporary directory at: "
                      +:+ js_to_string targetPath) error in
         throw error) in
  ret targetPath.

(** ** II.3  [src/cwebp.js] *)

Definition platformConfig : gmap string (list string) :=
  list_to_map
    [("darwin-x64", ["libwebp_osx"; "bin"; "cwebp"]);
     ("darwin-arm64", ["libwebp_osx"; "bin"; "cwebp"]);
     ("linux-x64", ["libwebp_linux"; "bin"; "cwebp"]);
     ("win32-x64", ["libwebp_win64"; "bin"; "cwebp.exe"])].

Definition platform_key : string := platform h +:+ "-" +:+ arch h.

Definition unsupported (key : string) : error :=
  PlainError ("Unsupported platform-architecture combination: " +:+ key
              +:+ ". Please add an entry to the platformConfig.").

Definition getCwebpPath : M string :=
  let key := platform_key in
  let pathSegments := platformConfig !! key in
  match pathSegments with
  | None => throw (unsupported key)
  | Some segs => ret (Path.join_paths (dirname h :: ".." :: "bin" :: segs))
  end.

(** ** II.4  [src/webpconverter.js] *)

Definition executeCommand (binaryPath : string) (args : list string)
  : M (string * string) :=
  try_catch
    (let* (stdout, stderr) := execFile binaryPath args in
     let* _ :=
       (if negb (JsString.is_empty stderr)
        then console_warn ("[webp-lib stderr]: " +:+ stderr)
        else ret tt) in
     ret (stdout, stderr))
    (fun error =>
       let* _ := console_error
                   ("[webp-lib error]: Failed to execute " +:+ binaryPath)
                   error in
       throw error).

(** the argument list [cwebp] builds ([opt] is the source's [option]);
    [logging] defaults to "-quiet" *)
Definition cwebp_args (input_image output_image opt : string)
           (logging : option string) : list string :=
  JsString.split_on " " opt
  ++ [input_image; "-o"; output_image; default "-quiet" logging].

Definition cwebp (input_image output_image opt : string)
           (logging : option string) : M (string * string) :=
  let args := cwebp_args input_image output_image opt logging in
  let* bin := getCwebpPath in
  executeCommand bin args.

(** ** II.5  [src/buffer_utils.js] *)

(** the body of the [try] block with its [catch] *)
Definition attempt (inputBuffer : list byte) (opt : string)
           (inputFilePath outputFilePath : string) : M (list byte) :=
  try_catch
    (let* _ := fs_writeFile inputFilePath inputBuffer in
     let* _ := cwebp inputFilePath outputFilePath opt None in
     let* outputBuffer := fs_readFile outputFilePath in
     ret outputBuffer)
    (fun error =>
       let* _ := console_error "WebP conversion failed:" error in
       throw error).

(** the [finally] block *)
Definition cleanup (inputFilePath outputFilePath : string) : M unit :=
  let* _ := fs_rm inputFilePath in
  fs_rm outputFilePath.

(** the two template literals *)
Definition input_name (filename imageType : string) : string :=
  filename +:+ "." +:+ imageType.
Definition output_name (filename : string) : string :=
  filename +:+ ".webp".

Definition convertToWebpBuffer (inputBuffer : list byte)
           (imageType opt : string) (extra_path : jsval)
  : M (list byte) :=
  let* filename := uuid in
  let* tempDir := getTempPath extra_path in
  let* inputFilePath := path_join tempDir (input_name filename imageType) in
  let* outputFilePath := path_join tempDir (output_name filename) in
  try_finally
    (attempt inputBuffer opt inputFilePath outputFilePath)
    (cleanup inputFilePath outputFilePath).

Definition buffer2webp (buffer : list byte) (image_type opt : string)
           (extra_path : jsval) : M (list byte) :=
  convertToWebpBuffer buffer image_type opt extra_path.

Definition base64str2webp (base64str image_type opt : string)
           (extra_path : jsval) : M string :=
  let inputBuffer := Buffer.from_base64 base64str in
  let* outputBuffer :=
    convertToWebpBuffer inputBuffer image_type opt extra_path in
  ret (Buffer.to_base64 outputBuffer).

End Program.

(** ** II.6  Vocabulary of the statements *)

(** What [rm_force] accepts: nothing there (on an existing directory chain
    or not), or a regular file. *)
Definition removable (t : Fs.tree) (cwd : Fs.loc) (p : string) : bool :=
  match Fs.resolve t cwd p with
  | inl ENOENT => true
  | inl _ => false
  | inr (_, None) => true
  | inr (_, Some (Fs.File _)) => true
  | inr (_, Some Fs.Dir) => false
  end.

(** An error that only the removal of a temp file raises. *)
Definition raised_by_rm (e : error) : bool :=
  match e with
  | SystemError _ sys_lstat _ | SystemError _ sys_rm _ => true
  | _ => false
  end.

Definition on_disk (h : host) (w : world) (p : string) : bool :=
  Fs.exists_at (fs w) (cwd h) p.

(** Steps 1 to 3 of the pipeline, the first four lines of
    [convertToWebpBuffer]: the identifier, the directory, the two paths. *)
Definition temp_pair (h : host) (extra_path : jsval) (imageType : string)
  : M (string * string) :=
  let* filename := uuid h in
  let* tempDir := getTempPath h extra_path in
  let* inputFilePath := path_join tempDir (input_name filename imageType) in
  let* outputFilePath := path_join tempDir (output_name filename) in
  ret (inputFilePath, outputFilePath).

(** [path] is [path.posix], which part I models, on every platform but
    "win32" *)
Definition posix (h : host) : bool :=
  negb (String.eqb (platform h) "win32").

(** the directory [getTempPath] falls back to *)
Definition default_temp_dir (h : host) : string :=
  Path.join_paths [tmpdir h; "webp-converter-js"].

(** the events that stand for a child process, and for a change of the
    file tree *)
Definition is_exec (ev : event) : bool :=
  match ev with EvExecFile _ _ => true | _ => false end.

Definition is_fs_write (ev : event) : bool :=
  match ev with
  | EvMkdir _ | EvWriteFile _ _ | EvRm _ => true
  | _ => false
  end.

(** Every computation of the program only adds to the trace; [emits P m]
    says moreover that what it adds satisfies [P]. *)
Definition emits {A} (P : event -> bool) (m : M A) : Prop :=
  forall w, exists evs,
    trace (m w).1 = trace w ++ evs /\ forallb P evs = true.

Definition any_event (ev : event) : bool := true.
Definition no_exec (ev : event) : bool := negb (is_exec ev).

(** The base64 adapter as the design describes it: decode, delegate to the
    buffer pipeline, encode. *)
Definition convertBase64_composed (h : host) (base64Input sourceFormatTag
  toolOptions : string) (tempDirOverride : jsval) : M string :=
  fun w =>
    let bytes := Buffer.from_base64 base64Input in
    let (w', r) := buffer2webp h bytes sourceFormatTag toolOptions tempDirOverride w in
    (w', map_result Buffer.to_base64 r).

(** ** II.7  The statements as the design words them

    Each is a proposition about one call; the ones that do not hold are
    refuted in part III, next to what holds instead. *)

(** Cleanup invariant: a call that reaches the write step has attempted to
    remove both temp paths, and neither exists, when it returns. *)
Definition cleanup_invariant (h : host) (inputBuffer : list byte)
  (imageType opt : string) (extra_path : jsval) (w : world) : Prop :=
  forall w0 i o,
    temp_pair h extra_path imageType w = (w0, Ok (i, o)) ->
    let w' := (convertToWebpBuffer h inputBuffer imageType opt extra_path w).1 in
    In (EvRm i) (trace w') /\ In (EvRm o) (trace w')
    /\ on_disk h w' i = false /\ on_disk h w' o = false.


(** Bad base64: the call rejects at the decode step, the world untouched. *)
Definition rejects_at_decode (h : host) (base64str image_type opt : string)
  (extra_path : jsval) (w : world) : Prop :=
  Buffer.well_formed_groups base64str = false ->
  let out := base64str2webp h base64str image_type opt extra_path w in
  is_ok out.2 = false /\ fs out.1 = fs w /\ trace out.1 = trace w.

(** Non-collision: the temp pairs of two calls that drew different
    identifiers have no path in common. *)
Definition pairs_disjoint (h : host) (extra1 : jsval) (type1 : string)
  (w1 : world) (extra2 : jsval) (type2 : string) (w2 : world) : Prop :=
  forall wa i1 o1 wb i2 o2,
    temp_pair h extra1 type1 w1 = (wa, Ok (i1, o1)) ->
    temp_pair h extra2 type2 w2 = (wb, Ok (i2, o2)) ->
    uuid_v4 h (drawn w1) <> uuid_v4 h (drawn w2) ->
    i1 <> i2 /\ i1 <> o2 /\ o1 <> i2 /\ o1 <> o2.

(** Tool invoker: the call fails exactly when the child cannot be spawned
    or exits with a non-zero status, and resolves with the captured pair on
    status zero. *)
Definition fails_on_spawn_or_status_only (h : host) (binaryPath : string)
  (args : list string) (w : world) : Prop :=
  let child := (run h binaryPath args (fs w)).2 in
  let r := (executeCommand h binaryPath args w).2 in
  (is_ok r = false <->
   (exists code, child = SpawnFailed code)
   \/ (exists status stdout stderr,
         child = Exited status stdout stderr /\ status <> 0%Z))
  /\ (forall stdout stderr,
        child = Exited 0 stdout stderr -> r = Ok (stdout, stderr)).

(** Missing binary: the call fails with the unsupported-platform error and
    has written nothing to the file system. *)
Definition fails_before_writes (h : host) (buffer : list byte)
  (image_type opt : string) (extra_path : jsval) (w : world) : Prop :=
  platformConfig !! platform_key h = None ->
  let out := buffer2webp h buffer image_type opt extra_path w in
  out.2 = Err (unsupported (platform_key h))
  /\ List.filter is_fs_write (trace out.1) = List.filter is_fs_write (trace w).

(** ** II.8  A host to run the program on

    A Linux machine whose [cwebp] is replaced by a stand-in that copies its
    input, behind a four-byte tag, to its output. *)

Definition stand_in_cwebp (cwd : Fs.loc) (file : string) (args : list string)
  (t : Fs.tree) : Fs.tree * outcome :=
  match rev args with
  | _ :: output :: "-o" :: input :: _ =>
      match Fs.readFile t cwd input with
      | Ok d =>
          match Fs.writeFile t cwd output (Buffer.of_text "RIFF" ++ d) with
          | (t', Ok _) => (t', Exited 0 "" "")
          | (t', Err _) => (t', Exited 1 "" "cannot write the output")
          end
      | Err _ => (t, Exited 1 "" "cannot read the input")
      end
  | _ => (t, Exited 2 "" "usage")
  end.

Definition id_a : string := "3f2b8c1e-9a4d-4e7b-8c21-5d6f7a8b9c0d".
Definition id_b : string := "7c9e6679-7425-40de-944b-e07fc1f90ae7".

Definition linux_x64 : host :=
  {| platform := "linux"; arch := "x64";
     dirname := "/app/node_modules/img-webpify/src";
     tmpdir := "/tmp";
     cwd := ["app"];
     uuid_v4 := fun n => match n with 0 => id_a | _ => id_b end;
     run := stand_in_cwebp ["app"] |}.

(** the same machine with an ARM processor: no entry in [platformConfig] *)
Definition linux_arm64 : host :=
  {| platform := "linux"; arch := "arm64";
     dirname := dirname linux_x64;
     tmpdir := tmpdir linux_x64;
     cwd := cwd linux_x64;
     uuid_v4 := uuid_v4 linux_x64;
     run := run linux_x64 |}.

(** a [cwebp] that rejects its options *)
Definition linux_x64_strict : host :=
  {| platform := "linux"; arch := "x64";
     dirname := dirname linux_x64;
     tmpdir := tmpdir linux_x64;
     cwd := cwd linux_x64;
     uuid_v4 := uuid_v4 linux_x64;
     run := fun _ _ t => (t, Exited 1 "" "Unknown option '-bogus'") |}.

(** a [cwebp] that exits with status zero after printing one byte more
    than [maxBuffer] holds *)
Definition verbose_output : string :=
  JsString.repeated (N.to_nat (maxBuffer + 1)) "."%char.

Definition linux_x64_verbose : host :=
  {| platform := "linux"; arch := "x64";
     dirname := dirname linux_x64;
     tmpdir := tmpdir linux_x64;
     cwd := cwd linux_x64;
     uuid_v4 := uuid_v4 linux_x64;
     run := fun _ _ t => (t, Exited 0 verbose_output "") |}.

Definition fresh_disk : Fs.tree :=
  <[ ["tmp"] := Fs.Dir ]> (<[ ["app"] := Fs.Dir ]> ∅).

Definition boot : world := {| fs := fresh_disk; drawn := 0; trace := [] |}.

Definition sample_png : list byte := Buffer.of_text "PNG...".

(** ** II.9  The other functions of the modules *)

(** one element of [input_frames] *)
Record frame := {
  path : string;
  offset : string
}.

(** [arr.forEach(f)] with a callback that may throw *)
Fixpoint forEach {A} (f : A -> M unit) (l : list A) : M unit :=
  match l with
  | [] => ret tt
  | x :: l' => let* _ := f x in forEach f l'
  end.

Section MoreProgram.

Variable h : host.

(** *** [webpmux.js] (kept behind [cwebp.js] in [src/src/cwebp.js]) *)

Definition webpmux_platformConfig : gmap string (list string) :=
  list_to_map
    [("darwin-x64", ["libwebp_osx"; "bin"; "webpmux"]);
     ("darwin-arm64", ["libwebp_osx"; "bin"; "webpmux"]);
     ("linux-x64", ["libwebp_linux"; "bin"; "webpmux"]);
     ("win32-x64", ["libwebp_win64"; "bin"; "webpmux.exe"])].

Definition unsupported_webpmux (key : string) : error :=
  PlainError ("Unsupported platform-architecture combination for webpmux: "
              +:+ key +:+ ". Please add an entry to the platformConfig.").

Definition getWebpmuxPath : M string :=
  let key := platform_key h in
  let pathSegments := webpmux_platformConfig !! key in
  match pathSegments with
  | None => throw (unsupported_webpmux key)
  | Some segs => ret (Path.join_paths (dirname h :: ".." :: "bin" :: segs))
  end.

(** *** [src/webpconverter.js], the path-based functions

    [dwebp.js] and [gwebp.js] are not among the sources: the two locators
    they export are taken as they are. *)

Variable dewebp : M string.
Variable gifwebp : M string.

Definition dwebp_args (input_image output_image opt : string)
           (logging : option string) : list string :=
  [input_image] ++ JsString.split_on " " opt
  ++ ["-o"; output_image; default "-quiet" logging].

Definition dwebp (input_image output_image opt : string)
           (logging : option string) : M (string * string) :=
  let args := dwebp_args input_image output_image opt logging in
  let* bin := dewebp in
  executeCommand h bin args.

Definition gwebp_args (input_image output_image opt : string)
           (logging : option string) : list string :=
  JsString.split_on " " opt
  ++ [input_image; "-o"; output_image; default "-quiet" logging].

Definition gwebp (input_image output_image opt : string)
           (logging : option string) : M (string * string) :=
  let args := gwebp_args input_image output_image opt logging in
  let* bin := gifwebp in
  executeCommand h bin args.

Definition webpmux_add (input_image output_image metadata_path
           metadata_type : string) (logging : option string)
  : M (string * string) :=
  let args := ["-set"; metadata_type; metadata_path; input_image; "-o";
               output_image; default "-quiet" logging] in
  let* bin := getWebpmuxPath in
  executeCommand h bin args.

Definition webpmux_extract (input_image output_path metadata_type : string)
           (logging : option string) : M (string * string) :=
  let args := ["-get"; metadata_type; input_image; "-o"; output_path;
               default "-quiet" logging] in
  let* bin := getWebpmuxPath in
  executeCommand h bin args.

Definition webpmux_strip (input_image output_image metadata_type : string)
           (logging : option string) : M (string * string) :=
  let args := ["-strip"; metadata_type; input_image; "-o"; output_image;
               default "-quiet" logging] in
  let* bin := getWebpmuxPath in
  executeCommand h bin args.

(** [loop] is taken as a string, the form the documentation uses *)
Definition webpmux_animate_args (input_frames : list frame)
           (output_image loop bgcolor : string) (logging : option string)
  : list string :=
  let frameArgs :=
    flat_map (fun frame => ["-frame"; path frame; offset frame]) input_frames in
  frameArgs ++ ["-loop"; loop; "-bgcolor"; bgcolor; "-o"; output_image;
                default "-quiet" logging].

Definition webpmux_animate (input_frames : list frame)
           (output_image loop bgcolor : string) (logging : option string)
  : M (string * string) :=
  let args := webpmux_animate_args input_frames output_image loop bgcolor
                                   logging in
  let* bin := getWebpmuxPath in
  executeCommand h bin args.

(** [String(frame_number)] on a primitive value *)
Definition webpmux_getframe (input_image output_image : string)
           (frame_number : jsval) (logging : option string)
  : M (string * string) :=
  let args := ["-get"; "frame"; js_to_string frame_number; input_image; "-o";
               output_image; default "-quiet" logging] in
  let* bin := getWebpmuxPath in
  executeCommand h bin args.

(** *** [grant_permission], over the runtime's [fs.chmodSync]; the mode
    [0o755] is 493 *)

Variable chmodSync : string -> Z -> M unit.

Definition grant_permission : M unit :=
  let* cwebp_bin := getCwebpPath h in
  let* dwebp_bin := dewebp in
  let* gwebp_bin := gifwebp in
  let* webpmux_bin := getWebpmuxPath in
  let binaries := [cwebp_bin; dwebp_bin; gwebp_bin; webpmux_bin] in
  forEach (fun exePath => chmodSync exePath 493%Z) binaries.

End MoreProgram.

(** ** II.10  More vocabulary *)

(** a computation that draws no identifier *)
Definition keeps_drawn {A} (m : M A) : Prop :=
  forall w, drawn (m w).1 = drawn w.

(** the events of a child process and of the console: no call into [fs],
    no identifier *)
Definition process_only (ev : event) : bool :=
  match ev with
  | EvExecFile _ _ | EvConsoleWarn _ | EvConsoleError _ _ => true
  | _ => false
  end.

(** how often a character occurs in a text *)
Fixpoint occurrences (c : ascii) (s : string) : nat :=
  match s with
  | EmptyString => 0
  | String c' s' => (if Ascii.eqb c' c then 1 else 0) + occurrences c s'
  end.

(** the numbers below [k], and a check of all of them *)
Definition below (k : nat) : list N := map N.of_nat (seq 0 k).

Definition all_below (k : nat) (P : N -> bool) : bool := forallb P (below k).

(** the file name in front of a list of directory names *)
Definition sibling_of (segs segs' : list string) : Prop :=
  removelast segs = removelast segs'.

(** a computation that starts at most one child process and makes no call
    into [fs] *)
Definition one_process_at_most {A} (m : M A) : Prop :=
  forall w, exists evs,
    trace (m w).1 = trace w ++ evs
    /\ forallb process_only evs = true
    /\ length (List.filter is_exec evs) <= 1.

(** the events of the write, tool, read and cleanup steps *)
Definition is_step_event (ev : event) : bool :=
  match ev with
  | EvWriteFile _ _ | EvReadFile _ | EvRm _ | EvExecFile _ _ => true
  | _ => false
  end.

(** * III  Properties *)

(** ** III.0  The runtime model on examples *)

Example number_text_small : JsNumber.to_string 80 = "80".
Proof. reflexivity. Qed.

Example number_text_negative : JsNumber.to_string (-3) = "-3".
Proof. reflexivity. Qed.

Example number_text_last_plain :
  JsNumber.to_string (10 ^ 21 - 1) = "1e+21"
  /\ JsNumber.to_string (10 ^ 20) = "100000000000000000000".
Proof. split; vm_compute; reflexivity. Qed.

Example number_text_rounded :
  JsNumber.to_string (2 ^ 53 + 1) = "9007199254740992"
  /\ JsNumber.to_string (2 ^ 64) = "18446744073709552000".
Proof. split; vm_compute; reflexivity. Qed.

Example number_text_exponent :
  JsNumber.to_string (10 ^ 21) = "1e+21"
  /\ JsNumber.to_string (2 ^ 70) = "1.1805916207174113e+21"
  /\ JsNumber.to_string (2 ^ 1024) = "Infinity".
Proof. repeat split; vm_compute; reflexivity. Qed.

Example byteLength_ascii : Buffer.byteLength "Saving file" = 11%N.
Proof. reflexivity. Qed.

Example spawn_arguments_plain :
  spawn_arguments_ok "/app/bin/cwebp" ["-q"; "80"; "in.png"] = true.
Proof. reflexivity. Qed.

Example spawn_arguments_nul :
  spawn_arguments_ok "/app/bin/cwebp" ["-q"; String JsString.nul "80"] = false
  /\ spawn_arguments_ok "" [] = false.
Proof. split; reflexivity. Qed.

Example split_empty : JsString.split_on " " "" = [""].
Proof. reflexivity. Qed.

Example split_q80 : JsString.split_on " " "-q 80" = ["-q"; "80"].
Proof. reflexivity. Qed.

Example split_double : JsString.split_on " " "-q  80 " = ["-q"; ""; "80"; ""].
Proof. reflexivity. Qed.

Example join_tmp :
  Path.join_paths ["/tmp"; "webp-converter-js"] = "/tmp/webp-converter-js".
Proof. reflexivity. Qed.

Example join_dotdot : Path.join_paths ["/tmp/t"; "abc./.."] = "/tmp/t".
Proof. reflexivity. Qed.

Example join_rel : Path.join_paths ["../a/./b//"; "../c"] = "../a/c".
Proof. reflexivity. Qed.

Example join_trailing : Path.join_paths ["/tmp/t/"; "x.png/"] = "/tmp/t/x.png/".
Proof. reflexivity. Qed.

Example join_root_up : Path.join_paths ["/"; "../.."] = "/".
Proof. reflexivity. Qed.

Example base64_hello : Buffer.from_base64 "aGVsbG8=" = Buffer.of_text "hello".
Proof. reflexivity. Qed.

Example base64_hello_back : Buffer.to_base64 (Buffer.of_text "hello") = "aGVsbG8=".
Proof. reflexivity. Qed.

Example base64_lenient :
  Buffer.from_base64 "aG!V sb*G8" = Buffer.of_text "hello".
Proof. reflexivity. Qed.

Example base64_malformed_sample :
  Buffer.well_formed_groups "not-valid-base64!!" = false
  /\ length (Buffer.from_base64 "not-valid-base64!!") = 12.
Proof. split; reflexivity. Qed.

Example uuid_sample : Uuid.is_uuid "3f2b8c1e-9a4d-4e7b-8c21-5d6f7a8b9c0d" = true.
Proof. reflexivity. Qed.

(** ** III.1  Strings and splitting *)

#[local] Arguments String.append !_ _ / : simpl nomatch.

Section StringFacts.
Import JsString.

Lemma append_nil_r (s : string) : s +:+ "" = s.
Proof. induction s as [|c s IH]; simpl; [reflexivity | now f_equal]. Qed.

Lemma append_assoc (a b c : string) : (a +:+ b) +:+ c = a +:+ (b +:+ c).
Proof. induction a as [|x a IH]; simpl; [reflexivity | now f_equal]. Qed.

Lemma append_length (a b : string) :
  String.length (a +:+ b) = String.length a + String.length b.
Proof. induction a as [|x a IH]; simpl; [reflexivity | now f_equal]. Qed.

(** Two texts that start with prefixes of one length share the prefix. *)
Lemma append_prefix_inj (a b x y : string) :
  String.length a = String.length b -> a +:+ x = b +:+ y -> a = b.
Proof.
  revert b; induction a as [|c a IH]; intros [|d b] Hlen Heq;
    simpl in *; try discriminate; [reflexivity|].
  injection Heq as -> Heq. f_equal. apply IH; [lia | exact Heq].
Qed.

Lemma split_on_not_nil (c : ascii) (s : string) : split_on c s <> [].
Proof.
  destruct s as [|x s]; simpl; [discriminate|].
  destruct (Ascii.eqb x c); [discriminate|].
  destruct (split_on c s); discriminate.
Qed.

Lemma split_on_no_sep (c : ascii) (s : string) :
  mem c s = false -> split_on c s = [s].
Proof.
  induction s as [|x s IH]; simpl; [reflexivity|].
  intros H. apply orb_false_elim in H as [Hx Hs].
  rewrite Hx, (IH Hs). reflexivity.
Qed.

(** Splitting distributes over a separator in the middle. *)
Lemma split_on_app (c : ascii) (a b : string) :
  split_on c (a +:+ String c b) = split_on c a ++ split_on c b.
Proof.
  induction a as [|x a IH]; simpl.
  - now rewrite Ascii.eqb_refl.
  - destruct (Ascii.eqb x c); [now rewrite IH|].
    rewrite IH. destruct (split_on c a) as [|h t] eqn:E; [|reflexivity].
    now apply split_on_not_nil in E.
Qed.

(** No piece of a split holds the separator ... *)
Lemma split_on_pieces (c : ascii) (s : string) :
  Forall (fun x => mem c x = false) (split_on c s).
Proof.
  induction s as [|x s IH]; simpl; [repeat constructor|].
  destruct (Ascii.eqb x c) eqn:E; [constructor; [reflexivity | exact IH]|].
  destruct (split_on c s) as [|h t]; [repeat constructor; simpl; now rewrite E|].
  inversion IH; subst. constructor; [simpl; now rewrite E | assumption].
Qed.

(** ... and gluing the pieces with the separator gives the text back, so
    the split is the (only) decomposition of the text at its separators. *)
Lemma join_split_on (c : ascii) (s : string) :
  join (String c "") (split_on c s) = s.
Proof.
  unfold join. induction s as [|x s IH]; simpl; [reflexivity|].
  destruct (Ascii.eqb x c) eqn:E.
  - apply Ascii.eqb_eq in E as ->.
    destruct (split_on c s) as [|h t] eqn:Es;
      [now apply split_on_not_nil in Es|].
    simpl in *. now rewrite IH.
  - destruct (split_on c s) as [|h t] eqn:Es;
      [now apply split_on_not_nil in Es|].
    simpl in *. destruct t; simpl in *; now rewrite <- IH.
Qed.

Lemma concat_snoc (sep : string) (l : list string) (n : string) :
  String.concat sep (l ++ [n])
  = match l with
    | [] => n
    | _ => String.concat sep l +:+ sep +:+ n
    end.
Proof.
  induction l as [|x l IH]; [reflexivity|].
  simpl. rewrite IH. destruct l as [|y l]; simpl; [reflexivity|].
  now rewrite !append_assoc.
Qed.

Lemma last_char_app (a n : string) :
  n <> "" -> last_char (a +:+ n) = last_char n.
Proof.
  intros Hn. induction a as [|x a IH]; simpl; [reflexivity|].
  rewrite IH. destruct (a +:+ n) eqn:E; [|reflexivity].
  destruct a, n; simpl in E; congruence.
Qed.

Lemma last_char_mem (c : ascii) (n : string) :
  mem c n = false -> last_char n <> Some c.
Proof.
  induction n as [|x n IH]; simpl; [discriminate|].
  intros H. apply orb_false_elim in H as [Hx Hn].
  destruct n; [|now apply IH].
  intros [= ->]. now rewrite Ascii.eqb_refl in Hx.
Qed.

Lemma mem_app (c : ascii) (a b : string) :
  mem c (a +:+ b) = mem c a || mem c b.
Proof. induction a as [|x a IH]; simpl; [reflexivity | now rewrite IH, orb_assoc]. Qed.

Lemma all_chars_mem (p : ascii -> bool) (c : ascii) (s : string) :
  p c = false -> all_chars p s = true -> mem c s = false.
Proof.
  intros Hc. induction s as [|x s IH]; simpl; [reflexivity|].
  intros H. apply andb_prop in H as [Hx Hs]. rewrite (IH Hs), orb_false_r.
  apply Ascii.eqb_neq. intros ->. congruence.
Qed.

(** A list of space-free pieces is the split of its own join: the split
    is determined by the text. *)
Lemma split_on_join (c : ascii) (l : list string) :
  l <> [] -> Forall (fun x => mem c x = false) l ->
  split_on c (join (String c "") l) = l.
Proof.
  intros Hl Hall. induction Hall as [|x l Hx Hall IH]; [contradiction|].
  destruct l as [|y l].
  - simpl. now apply split_on_no_sep.
  - change (join (String c "") (x :: y :: l))
      with (x +:+ String c (join (String c "") (y :: l))).
    rewrite split_on_app, (split_on_no_sep c x Hx), IH by discriminate.
    reflexivity.
Qed.

End StringFacts.

(** ** III.2  [path.join] on a plain file name *)

Section PathFacts.
Import JsString Path.

Lemma plain_segment_inv (n : string) :
  plain_segment n = true ->
  n <> "" /\ mem sep n = false /\ n <> "." /\ n <> "..".
Proof.
  unfold plain_segment. intros H.
  repeat (apply andb_prop in H as [H ?]).
  repeat split.
  - destruct n; [discriminate | discriminate].
  - now apply negb_true_iff.
  - apply String.eqb_neq. now apply negb_true_iff.
  - apply String.eqb_neq. now apply negb_true_iff.
Qed.

Lemma norm_step_plain (b : bool) (stk : list string) (n : string) :
  plain_segment n = true -> norm_step b stk n = n :: stk.
Proof.
  intros H. apply plain_segment_inv in H as (H0 & _ & H1 & H2).
  unfold norm_step.
  apply String.eqb_neq in H0, H1, H2. now rewrite H0, H1, H2.
Qed.

Lemma is_empty_false (s : string) : s <> "" -> is_empty s = false.
Proof. now destruct s. Qed.

Lemma isAbsolute_plain (n : string) :
  plain_segment n = true -> isAbsolute n = false.
Proof.
  intros H. apply plain_segment_inv in H as (_ & H & _).
  destruct n as [|c n]; [reflexivity|]. unfold isAbsolute. simpl in *.
  now apply orb_false_elim in H as [H _].
Qed.

Lemma trailingSeparator_app (a n : string) :
  plain_segment n = true -> trailingSeparator (a +:+ n) = false.
Proof.
  intros H. apply plain_segment_inv in H as (H0 & H & _).
  unfold trailingSeparator. rewrite (last_char_app a n H0).
  pose proof (last_char_mem sep n H) as Hl.
  destruct (last_char n) as [c|]; [|reflexivity].
  apply Ascii.eqb_neq. congruence.
Qed.

Lemma normalize_plain (n : string) :
  plain_segment n = true -> normalize n = n.
Proof.
  intros Hn. pose proof (plain_segment_inv n Hn) as (Hne & Hsep & _).
  unfold normalize, normalizeString.
  rewrite (is_empty_false n Hne), (isAbsolute_plain n Hn).
  rewrite (split_on_no_sep sep n Hsep).
  change (fold_left (norm_step (negb false)) [n] [])
    with (norm_step true [] n).
  rewrite (norm_step_plain _ [] n Hn).
  change (join "/" (rev [n])) with n.
  rewrite (is_empty_false n Hne).
  change n with ("" +:+ n) at 1.
  now rewrite (trailingSeparator_app "" n Hn).
Qed.

Lemma normalize_dir_plain (d n : string) :
  plain_segment n = true ->
  exists pre, normalize (d +:+ String sep n) = pre +:+ n
              /\ (pre = "" \/ exists q, pre = q +:+ "/").
Proof.
  intros Hn. pose proof (plain_segment_inv n Hn) as (Hne & Hsep & _).
  assert (Hcat : forall pre, is_empty (pre +:+ n) = false).
  { intros pre. destruct pre; [now apply is_empty_false | reflexivity]. }
  assert (Hs : d +:+ String sep n = (d +:+ "/") +:+ n)
    by now rewrite append_assoc.
  unfold normalize, normalizeString.
  rewrite split_on_app, (split_on_no_sep sep n Hsep), fold_left_app.
  remember (isAbsolute (d +:+ String sep n)) as abs eqn:Habs.
  remember (fold_left (norm_step (negb abs)) (split_on sep d) []) as stk.
  change (fold_left (norm_step (negb abs)) [n] stk)
    with (norm_step (negb abs) stk n).
  rewrite (norm_step_plain _ _ n Hn).
  change (rev (n :: stk)) with (rev stk ++ [n]).
  unfold join. rewrite concat_snoc.
  rewrite Hs, (trailingSeparator_app (d +:+ "/") n Hn), (Hcat (d +:+ "/")).
  destruct (rev stk) as [|x stk'].
  - rewrite (is_empty_false n Hne). destruct abs.
    + exists "/". split; [reflexivity | right; now exists ""].
    + exists "". split; [reflexivity | now left].
  - set (body := String.concat "/" (x :: stk')).
    replace (body +:+ "/" +:+ n) with ((body +:+ "/") +:+ n)
      by apply append_assoc.
    rewrite Hcat. destruct abs.
    + exists ("/" +:+ body +:+ "/"). split.
      * now rewrite !append_assoc.
      * right. exists ("/" +:+ body). now rewrite !append_assoc.
    + exists (body +:+ "/"). split; [reflexivity |].
      right. now exists body.
Qed.

Lemma join_paths_pair (d n : string) :
  n <> "" ->
  join_paths [d; n]
  = if is_empty d then normalize n else normalize (d +:+ String sep n).
Proof. intros Hn. destruct d, n; try reflexivity; congruence. Qed.

(** The normalised join ends with the name, right after a separator (or,
    for a relative result in the current directory, is the name). *)
Lemma join_paths_plain (d n : string) :
  plain_segment n = true ->
  exists pre, join_paths [d; n] = pre +:+ n
              /\ (pre = "" \/ exists q, pre = q +:+ "/").
Proof.
  intros Hn. pose proof (plain_segment_inv n Hn) as (Hne & _).
  rewrite (join_paths_pair d n Hne). destruct (is_empty d).
  - exists "". split; [now rewrite normalize_plain | now left].
  - now apply normalize_dir_plain.
Qed.

Lemma basename_join_paths (d n : string) :
  plain_segment n = true -> basename (join_paths [d; n]) = n.
Proof.
  intros Hn. destruct (join_paths_plain d n Hn) as (pre & -> & Hpre).
  pose proof (plain_segment_inv n Hn) as (_ & Hsep & _).
  unfold basename. destruct Hpre as [-> | [q ->]].
  - simpl. now rewrite (split_on_no_sep sep n Hsep).
  - rewrite append_assoc. change ("/" +:+ n) with (String sep n).
    rewrite split_on_app, (split_on_no_sep sep n Hsep).
    apply last_last.
Qed.

Lemma fold_norm_step_plain (b : bool) (l stk : list string) :
  Forall (fun x => plain_segment x = true) l ->
  fold_left (norm_step b) l stk = rev l ++ stk.
Proof.
  intros Hl. revert stk. induction Hl as [|x l Hx Hl IH]; intros stk;
    [reflexivity|].
  simpl. rewrite (norm_step_plain b stk x Hx), IH, <- app_assoc. reflexivity.
Qed.

(** On an absolute directory written without ".", ".." or doubled or
    trailing separators, joining a file name is plain concatenation. *)
Lemma join_paths_clean (segs : list string) (n : string) :
  segs <> [] -> Forall (fun x => plain_segment x = true) segs ->
  plain_segment n = true ->
  join_paths ["/" +:+ join "/" segs; n] = ("/" +:+ join "/" segs) +:+ "/" +:+ n.
Proof.
  intros Hne Hsegs Hn.
  pose proof (plain_segment_inv n Hn) as (Hn0 & Hnsep & _).
  assert (Hnosep : Forall (fun x => mem sep x = false) segs).
  { eapply List.Forall_impl; [|exact Hsegs]. intros x Hx.
    now apply plain_segment_inv in Hx as (_ & Hx & _). }
  rewrite (join_paths_pair _ n Hn0).
  change (is_empty ("/" +:+ join "/" segs)) with false. cbv iota.
  set (dir := "/" +:+ join "/" segs).
  assert (Hsplit : split_on sep (dir +:+ String sep n) = "" :: segs ++ [n]).
  { rewrite split_on_app, (split_on_no_sep sep n Hnsep).
    unfold dir. change ("/" +:+ join "/" segs)
      with ("" +:+ String sep (join (String sep "") segs)).
    rewrite split_on_app, (split_on_join sep segs Hne Hnosep). reflexivity. }
  unfold normalize, normalizeString. rewrite Hsplit.
  change (isAbsolute (dir +:+ String sep n)) with true.
  change (fold_left (norm_step (negb true)) ("" :: segs ++ [n]) [])
    with (fold_left (norm_step false) (segs ++ [n]) []).
  rewrite fold_norm_step_plain
    by (apply Forall_app; split; [exact Hsegs | now constructor]).
  rewrite app_nil_r, rev_involutive.
  assert (Hcat : forall pre, is_empty (pre +:+ n) = false).
  { intros pre. destruct pre; [now apply is_empty_false | reflexivity]. }
  assert (Hjoin : join "/" (segs ++ [n]) = (join "/" segs +:+ "/") +:+ n).
  { unfold join. rewrite concat_snoc.
    destruct segs; [contradiction | now rewrite append_assoc]. }
  rewrite !Hjoin, Hcat.
  replace (dir +:+ String sep n) with ((dir +:+ "/") +:+ n)
    by now rewrite append_assoc.
  rewrite (trailingSeparator_app _ n Hn).
  unfold dir. now rewrite !append_assoc.
Qed.

End PathFacts.

(** ** III.3  The file tree *)

#[local] Arguments Fs.step : simpl never.
#[local] Arguments Fs.node_at : simpl never.

Section FsFacts.
Import JsString Fs.

Implicit Types (t : tree) (l : loc) (cs : list string) (p : string).

Lemma node_at_insert t l n l' :
  l <> [] ->
  node_at (<[l := n]> t) l' = if decide (l = l') then Some n else node_at t l'.
Proof.
  intros Hl. destruct l' as [|x l'].
  - simpl. destruct (decide (l = [])); [contradiction | reflexivity].
  - unfold node_at. apply lookup_insert.
Qed.

Lemma node_at_delete t l l' :
  l <> [] ->
  node_at (delete l t) l' = if decide (l = l') then None else node_at t l'.
Proof.
  intros Hl. destruct l' as [|x l'].
  - simpl. destruct (decide (l = [])); [contradiction | reflexivity].
  - unfold node_at. apply lookup_delete.
Qed.

Lemma node_at_none_not_root t l : node_at t l = None -> l <> [].
Proof. intros H ->. discriminate. Qed.

Lemma node_at_file_not_root t l d : node_at t l = Some (File d) -> l <> [].
Proof. intros H ->. discriminate. Qed.

(** *** [mkdir -p] *)

(** Nothing that was there is lost or changed. *)
Lemma mkdirs_keeps cs : forall t l x n,
  node_at t x = Some n -> node_at (mkdirs t l cs).1 x = Some n.
Proof.
  induction cs as [|c cs IH]; intros t l x n Hx; simpl; [exact Hx|].
  destruct (node_at t (step l c)) as [[d|]|] eqn:E; simpl.
  - exact Hx.
  - now apply IH.
  - apply IH. rewrite node_at_insert by now apply node_at_none_not_root in E.
    destruct (decide (step l c = x)) as [Heq|]; [congruence | exact Hx].
Qed.

(** On success the whole chain of directories is in place. *)
Lemma mkdirs_ok cs : forall t l t',
  mkdirs t l cs = (t', None) ->
  node_at t l = Some Dir ->
  walk t' l cs = inr (fold_left step cs l)
  /\ node_at t' (fold_left step cs l) = Some Dir.
Proof.
  induction cs as [|c cs IH]; intros t l t' Hm Hl; simpl in *.
  - injection Hm as <-. now split.
  - assert (Hl' : node_at t' l = Some Dir).
    { replace t' with (mkdirs t l (c :: cs)).1; [now apply mkdirs_keeps|].
      simpl. now rewrite Hm. }
    rewrite Hl'.
    destruct (node_at t (step l c)) as [[d|]|] eqn:E.
    + discriminate.
    + now apply (IH t).
    + apply (IH _ _ _ Hm).
      rewrite node_at_insert by now apply node_at_none_not_root in E.
      now rewrite decide_True.
Qed.

(** On a chain that is already in place nothing is done. *)
Lemma mkdirs_existing cs : forall t l l',
  walk t l cs = inr l' -> node_at t l' = Some Dir ->
  mkdirs t l cs = (t, None).
Proof.
  induction cs as [|c cs IH]; intros t l l' Hw Hl'; simpl in *; [reflexivity|].
  destruct (node_at t l) as [[d|]|] eqn:E; try discriminate.
  assert (Hs : node_at t (step l c) = Some Dir).
  { destruct cs as [|c' cs]; simpl in Hw; [now injection Hw as ->|].
    destruct (node_at t (step l c)) as [[d|]|]; congruence. }
  rewrite Hs. now apply (IH t _ l').
Qed.

Lemma mkdirSync_ok t cwd p t' :
  mkdirSync t cwd p = (t', Ok tt) -> is_directory t' cwd p = true.
Proof.
  unfold mkdirSync, is_directory, resolve.
  destruct (is_empty p); [discriminate|].
  destruct (node_at t (start cwd p)) as [[d|]|] eqn:E; try discriminate.
  destruct (mkdirs t (start cwd p) (components p)) as [t1 [e|]] eqn:Em;
    [discriminate|].
  intros [= ->]. destruct (mkdirs_ok _ _ _ _ Em E) as [-> ->]. reflexivity.
Qed.

Lemma mkdirSync_existing t cwd p :
  is_directory t cwd p = true -> mkdirSync t cwd p = (t, Ok tt).
Proof.
  unfold mkdirSync, is_directory, resolve.
  destruct (is_empty p); [discriminate|].
  destruct (walk t (start cwd p) (components p)) as [e|l] eqn:Ew;
    [discriminate|].
  destruct (node_at t l) as [[d|]|] eqn:El.
  - destruct (names_directory p); discriminate.
  - intros _.
    assert (Hs : node_at t (start cwd p) = Some Dir).
    { destruct (components p) as [|c cs]; simpl in Ew;
        [now injection Ew as -> |].
      destruct (node_at t (start cwd p)) as [[d|]|]; congruence. }
    rewrite Hs. now rewrite (mkdirs_existing _ _ _ _ Ew El).
  - discriminate.
Qed.

(** [mkdirSync] is refused exactly when a regular file is in the way or
    the starting directory is missing: *)
Lemma mkdirSync_fails t cwd p t' e :
  mkdirSync t cwd p = (t', Err e) ->
  exists code, e = SystemError code sys_mkdir p
               /\ is_directory t' cwd p = false.
Proof.
  unfold mkdirSync.
  destruct (is_empty p) eqn:Ep.
  { intros [= <- <-]. eexists; split; [reflexivity|].
    unfold is_directory, resolve. now rewrite Ep. }
  destruct (node_at t (start cwd p)) as [[d|]|] eqn:E.
  - intros [= <- <-]. eexists; split; [reflexivity|].
    unfold is_directory, resolve. rewrite Ep.
    destruct (components p) as [|c cs]; simpl; rewrite E; [|reflexivity].
    now destruct (names_directory p).
  - destruct (mkdirs t (start cwd p) (components p)) as [t1 [e1|]] eqn:Em;
      [|discriminate].
    intros [= <- <-]. eexists; split; [reflexivity|].
    unfold is_directory, resolve. rewrite Ep.
    assert (Hgen : forall cs t l t1 e1,
               mkdirs t l cs = (t1, Some e1) ->
               match walk t1 l cs with
               | inl _ => True
               | inr l' => exists d, node_at t1 l' = Some (File d)
               end).
    { clear. induction cs as [|c cs IH]; intros t l t1 e1 Hm; simpl in *;
        [discriminate|].
      destruct (node_at t1 l) as [[d|]|]; try exact I.
      destruct (node_at t (step l c)) as [[d|]|] eqn:E.
      - injection Hm as <- _. destruct cs; simpl.
        + now exists d.
        + now rewrite E.
      - now apply (IH t _ _ e1).
      - now apply (IH _ _ _ e1 Hm). }
    specialize (Hgen _ _ _ _ _ Em).
    destruct (walk t1 (start cwd p) (components p)) as [|l']; [reflexivity|].
    destruct Hgen as [d ->]. now destruct (names_directory p).
  - intros [= <- <-]. eexists; split; [reflexivity|].
    unfold is_directory, resolve. rewrite Ep.
    destruct (components p) as [|c cs]; simpl; rewrite E; reflexivity.
Qed.

End FsFacts.

(** *** [rm] *)

Section RmFacts.
Import JsString Fs.

Implicit Types (t : tree) (l : loc) (cs : list string) (p : string).

(** Deleting a regular file changes no walk that succeeded, and turns no
    failed walk into a success. *)
Lemma walk_delete t l0 d :
  node_at t l0 = Some (File d) ->
  forall cs l,
    match walk t l cs with
    | inr x => walk (delete l0 t) l cs = inr x
    | inl ENOENT => walk (delete l0 t) l cs = inl ENOENT
    | inl _ => exists e, walk (delete l0 t) l cs = inl e
    end.
Proof.
  intros H0. pose proof (node_at_file_not_root _ _ _ H0) as Hne.
  induction cs as [|c cs IH]; intros l; simpl; [reflexivity|].
  rewrite (node_at_delete t l0 l Hne).
  destruct (decide (l0 = l)) as [<-|Hl].
  - rewrite H0. now exists ENOENT.
  - destruct (node_at t l) as [[d'|]|]; [now exists ENOTDIR | apply IH | reflexivity].
Qed.

Lemma resolve_delete_found t cwd l0 d p l n :
  node_at t l0 = Some (File d) ->
  resolve t cwd p = inr (l, n) ->
  resolve (delete l0 t) cwd p
  = inr (l, if decide (l0 = l) then None else n).
Proof.
  intros H0 Hr. pose proof (node_at_file_not_root _ _ _ H0) as Hne.
  unfold resolve in *. destruct (is_empty p); [discriminate|].
  pose proof (walk_delete t l0 d H0 (components p) (start cwd p)) as Hw.
  destruct (walk t (start cwd p) (components p)) as [e|x]; [discriminate|].
  rewrite Hw, (node_at_delete t l0 x Hne).
  destruct (node_at t x) as [[d'|]|] eqn:Ex.
  - destruct (names_directory p); [discriminate|]. injection Hr as <- <-.
    now destruct (decide (l0 = x)).
  - injection Hr as <- <-. destruct (decide (l0 = x)); [congruence | reflexivity].
  - injection Hr as <- <-. now destruct (decide (l0 = x)).
Qed.


Lemma resolve_delete_error t cwd l0 d p e :
  node_at t l0 = Some (File d) ->
  resolve t cwd p = inl e ->
  exists_at (delete l0 t) cwd p = false.
Proof.
  intros H0 Hr. pose proof (node_at_file_not_root _ _ _ H0) as Hne.
  unfold exists_at, resolve in *. destruct (is_empty p); [reflexivity|].
  pose proof (walk_delete t l0 d H0 (components p) (start cwd p)) as Hw.
  destruct (walk t (start cwd p) (components p)) as [e'|x].
  - destruct e'; [now rewrite Hw | destruct Hw as [e2 ->]; reflexivity ..].
  - rewrite Hw, (node_at_delete t l0 x Hne).
    destruct (decide (l0 = x)); [reflexivity|].
    destruct (node_at t x) as [[d'|]|]; try discriminate.
    now destruct (names_directory p).
Qed.

(** Once [rm] has returned normally the path names nothing. *)
Lemma rm_force_absent t cwd p t' :
  rm_force t cwd p = (t', Ok tt) -> exists_at t' cwd p = false.
Proof.
  unfold rm_force. destruct (resolve t cwd p) as [e|[l [[d|]|]]] eqn:Hr.
  - destruct e; intros [= <-]. unfold exists_at. now rewrite Hr.
  - intros [= <-].
    assert (H0 : node_at t l = Some (File d)).
    { unfold resolve in Hr. destruct (is_empty p); [discriminate|].
      destruct (walk _ _ _) as [|x]; [discriminate|].
      destruct (node_at t x) as [[d'|]|] eqn:Ex; try congruence.
      destruct (names_directory p); congruence. }
    unfold exists_at.
    rewrite (resolve_delete_found _ _ _ _ _ _ _ H0 Hr).
    now rewrite decide_True.
  - discriminate.
  - intros [= <-]. unfold exists_at. now rewrite Hr.
Qed.

(** A file found by [resolve] sits at the location returned. *)
Lemma resolve_file t cwd p l d :
  resolve t cwd p = inr (l, Some (File d)) -> node_at t l = Some (File d).
Proof.
  unfold resolve. destruct (is_empty p); [discriminate|].
  destruct (walk _ _ _) as [|x]; [discriminate|].
  destruct (node_at t x) as [[d'|]|] eqn:Ex; try congruence.
  destruct (names_directory p); congruence.
Qed.

(** [rm] of one path brings no other path into being ... *)
Lemma rm_force_keeps_absent t cwd q t' r p :
  rm_force t cwd q = (t', r) ->
  exists_at t cwd p = false -> exists_at t' cwd p = false.
Proof.
  unfold rm_force. destruct (resolve t cwd q) as [e|[l [[d|]|]]] eqn:Hr.
  - destruct e; now intros [= <- _].
  - intros [= <- _] Hp. pose proof (resolve_file _ _ _ _ _ Hr) as H0.
    unfold exists_at in Hp.
    destruct (resolve t cwd p) as [e|[x n]] eqn:Hp'.
    + now apply (resolve_delete_error _ _ _ _ _ _ H0 Hp').
    + unfold exists_at. rewrite (resolve_delete_found _ _ _ _ _ _ _ H0 Hp').
      destruct n; [discriminate|]. now destruct (decide (l = x)).
  - now intros [= <- _].
  - now intros [= <- _].
Qed.


(** [rm] returns normally exactly on removable paths; its errors are its
    own. *)
Lemma rm_force_result t cwd p :
  match (rm_force t cwd p).2 with
  | Ok _ => removable t cwd p = true
  | Err e => removable t cwd p = false /\ raised_by_rm e = true
  end.
Proof.
  unfold rm_force, removable.
  destruct (resolve t cwd p) as [e|[l [[d|]|]]]; simpl; auto.
  destruct e; simpl; auto.
Qed.

End RmFacts.

(** ** III.4  The pipeline, step by step *)

Section PipelineFacts.
Variable h : host.

Lemma getTempPath_string (customPath : jsval) (p : string) (w : world) :
  targetPath h customPath = VStr p ->
  getTempPath h customPath w
  = match Fs.mkdirSync (fs w) (cwd h) p with
    | (t, Ok _) => (with_fs t (log (EvMkdir p) w), Ok (VStr p))
    | (t, Err e) =>
        (log (EvConsoleError
                ("Failed to create temporary directory at: " +:+ p) e)
             (with_fs t (log (EvMkdir p) w)),
         Err e)
    end.
Proof.
  intros Ht. unfold getTempPath, bind, try_catch, fs_mkdirSync, bind.
  rewrite Ht. simpl.
  destruct (Fs.mkdirSync (fs w) (cwd h) p) as [t [[]|e]]; reflexivity.
Qed.

Lemma getTempPath_other (customPath : jsval) (w : world) :
  (forall p, targetPath h customPath <> VStr p) ->
  exists w' e, getTempPath h customPath w = (w', Err e).
Proof.
  intros Ht. unfold getTempPath, bind, try_catch, fs_mkdirSync, bind.
  destruct (targetPath h customPath) eqn:E; simpl; eauto.
  now destruct (Ht s).
Qed.

(** What a successful resolution has done. *)
Lemma getTempPath_ok (customPath : jsval) (w w' : world) (v : jsval) :
  getTempPath h customPath w = (w', Ok v) ->
  exists p, targetPath h customPath = VStr p /\ v = VStr p
            /\ Fs.mkdirSync (fs w) (cwd h) p = (fs w', Ok tt)
            /\ trace w' = trace w ++ [EvMkdir p]
            /\ drawn w' = drawn w.
Proof.
  intros H.
  destruct (targetPath h customPath) as [| | | | |p] eqn:E;
    try (destruct (getTempPath_other customPath w) as (w1 & e & He);
         [intros p; congruence | congruence]).
  exists p. rewrite (getTempPath_string _ _ _ E) in H.
  destruct (Fs.mkdirSync (fs w) (cwd h) p) as [t [[]|e]]; [|discriminate].
  injection H as <- <-. auto.
Qed.

Lemma temp_pair_ok (extra_path : jsval) (imageType : string)
      (w w0 : world) (i o : string) :
  temp_pair h extra_path imageType w = (w0, Ok (i, o)) ->
  exists d,
    targetPath h extra_path = VStr d
    /\ i = Path.join_paths [d; input_name (uuid_v4 h (drawn w)) imageType]
    /\ o = Path.join_paths [d; output_name (uuid_v4 h (drawn w))]
    /\ Fs.mkdirSync (fs w) (cwd h) d = (fs w0, Ok tt)
    /\ trace w0 = trace w ++ [EvUuid (uuid_v4 h (drawn w)); EvMkdir d].
Proof.
  unfold temp_pair, bind, uuid.
  destruct (getTempPath h extra_path _) as [w1 [v|e]] eqn:Eg; [|discriminate].
  apply getTempPath_ok in Eg as (d & Ht & -> & Hm & Htr & _).
  simpl. intros [= <- <- <-]. exists d. simpl in *.
  rewrite Htr, <- app_assoc. auto.
Qed.

Lemma convertToWebpBuffer_steps (inputBuffer : list byte)
      (imageType opt : string) (extra_path : jsval) (w : world) :
  convertToWebpBuffer h inputBuffer imageType opt extra_path w
  = match temp_pair h extra_path imageType w with
    | (w0, Ok (i, o)) =>
        try_finally (attempt h inputBuffer opt i o) (cleanup h i o) w0
    | (w0, Err e) => (w0, Err e)
    end.
Proof.
  unfold convertToWebpBuffer, temp_pair, bind, uuid.
  destruct (getTempPath h extra_path _) as [w1 [v|e]]; [|reflexivity].
  destruct v; reflexivity.
Qed.

(** The [finally] block: both removals in a row, the second only after the
    first returned normally. *)
Lemma cleanup_run (i o : string) (w : world) :
  cleanup h i o w
  = match Fs.rm_force (fs w) (cwd h) i with
    | (t, Err e) => (with_fs t (log (EvRm i) w), Err e)
    | (t, Ok _) =>
        match Fs.rm_force t (cwd h) o with
        | (t', r) => (with_fs t' (log (EvRm o) (with_fs t (log (EvRm i) w))), r)
        end
    end.
Proof.
  unfold cleanup, bind, fs_rm.
  destruct (Fs.rm_force (fs w) (cwd h) i) as [t [[]|e]]; reflexivity.
Qed.

End PipelineFacts.

(** membership in a trace built with [log] *)
Ltac in_trace :=
  unfold log, with_fs; simpl; rewrite ?in_app_iff; simpl; tauto.

(** ** III.5  Cleanup (C1) and error surfacing (C2) *)

(** C1, as worded, fails: with the format tag "/.." the input temp path
    normalises to the temp directory itself; the write is refused, the
    removal of a directory is refused too and ends the [finally] block, so
    the output path is never tried and the input path is still there. *)
Lemma cleanup_invariant_refuted :
  ~ cleanup_invariant linux_x64 sample_png "/.." "-q 80" VUndefined boot.
Proof.
  intros H.
  specialize (H (temp_pair linux_x64 VUndefined "/.." boot).1
                "/tmp/webp-converter-js"
                ("/tmp/webp-converter-js/" +:+ id_a +:+ ".webp")).
  assert (Hp : temp_pair linux_x64 VUndefined "/.." boot
               = ((temp_pair linux_x64 VUndefined "/.." boot).1,
                  Ok ("/tmp/webp-converter-js",
                      "/tmp/webp-converter-js/" +:+ id_a +:+ ".webp")))
    by (vm_compute; reflexivity).
  destruct (H Hp) as (_ & _ & Hin & _).
  vm_compute in Hin. discriminate.
Qed.

(** C1 (amended): for every call that reaches the write step, removal of
    the input temp path is attempted before the call returns; unless the
    call rejects with an error raised by that cleanup (a removal error
    other than "not found"), removal of the output temp path is attempted
    as well and neither path exists on disk when the call returns. *)
Theorem cleanup_on_every_exit (h : host) (inputBuffer : list byte)
        (imageType opt : string) (extra_path : jsval) (w w0 : world)
        (i o : string) :
  temp_pair h extra_path imageType w = (w0, Ok (i, o)) ->
  let out := convertToWebpBuffer h inputBuffer imageType opt extra_path w in
  In (EvRm i) (trace out.1)
  /\ ((exists e, out.2 = Err e /\ raised_by_rm e = true)
      \/ (In (EvRm o) (trace out.1)
          /\ on_disk h out.1 i = false /\ on_disk h out.1 o = false)).
Proof.
  intros Hp. cbv zeta. rewrite convertToWebpBuffer_steps, Hp.
  unfold try_finally.
  destruct (attempt h inputBuffer opt i o w0) as [w1 r].
  rewrite cleanup_run.
  pose proof (rm_force_result (fs w1) (cwd h) i) as R1.
  destruct (Fs.rm_force (fs w1) (cwd h) i) as [t [[]|e]] eqn:E1.
  - pose proof (rm_force_result t (cwd h) o) as R2.
    destruct (Fs.rm_force t (cwd h) o) as [t' [[]|e]] eqn:E2; simpl.
    + split; [apply in_or_app; left; apply in_or_app; right; now left|].
      right. split; [apply in_or_app; right; now left|].
      unfold on_disk; simpl. split.
      * eapply rm_force_keeps_absent; [exact E2|].
        eapply rm_force_absent; exact E1.
      * eapply rm_force_absent; exact E2.
    + split; [apply in_or_app; left; apply in_or_app; right; now left|].
      left. exists e. simpl in R2. now split.
  - simpl. split; [apply in_or_app; right; now left|].
    left. exists e. simpl in R1. now split.
Qed.

(** The amended statement at work: a PNG buffer on the sample host. *)
Lemma cleanup_on_every_exit_witness :
  let out := convertToWebpBuffer linux_x64 sample_png "png" "-q 80"
                                 VUndefined boot in
  In (EvRm ("/tmp/webp-converter-js/" +:+ id_a +:+ ".png")) (trace out.1)
  /\ ((exists e, out.2 = Err e /\ raised_by_rm e = true)
      \/ (In (EvRm ("/tmp/webp-converter-js/" +:+ id_a +:+ ".webp"))
             (trace out.1)
          /\ on_disk linux_x64 out.1
                     ("/tmp/webp-converter-js/" +:+ id_a +:+ ".png") = false
          /\ on_disk linux_x64 out.1
                     ("/tmp/webp-converter-js/" +:+ id_a +:+ ".webp") = false)).
Proof.
  apply (cleanup_on_every_exit linux_x64 sample_png "png" "-q 80" VUndefined
           boot (temp_pair linux_x64 VUndefined "png" boot).1).
  vm_compute. reflexivity.
Defined.

(** The two scenarios of the design: a conversion that succeeds, and one
    whose tool exits with status 1 after the input file was written. *)
Example scenario_success :
  let out := buffer2webp linux_x64 sample_png "png" "-q 80" VUndefined boot in
  out.2 = Ok (Buffer.of_text "RIFF" ++ sample_png)
  /\ on_disk linux_x64 out.1 ("/tmp/webp-converter-js/" +:+ id_a +:+ ".png")
     = false
  /\ on_disk linux_x64 out.1 ("/tmp/webp-converter-js/" +:+ id_a +:+ ".webp")
     = false.
Proof. repeat split; vm_compute; reflexivity. Qed.

Example scenario_tool_failure :
  let out := buffer2webp linux_x64_strict sample_png "png" "-bogus"
                         VUndefined boot in
  out.2 = Err (ChildError 1 "" "Unknown option '-bogus'")
  /\ In (EvWriteFile ("/tmp/webp-converter-js/" +:+ id_a +:+ ".png")
                     sample_png) (trace out.1)
  /\ on_disk linux_x64_strict out.1
             ("/tmp/webp-converter-js/" +:+ id_a +:+ ".png") = false.
Proof.
  cbv zeta. split; [vm_compute; reflexivity|].
  split; [vm_compute; tauto | vm_compute; reflexivity].
Qed.


Example masked_errors :
  let w0 := (temp_pair linux_x64 VUndefined "/.." boot).1 in
  (attempt linux_x64 sample_png "-q 80" "/tmp/webp-converter-js"
           ("/tmp/webp-converter-js/" +:+ id_a +:+ ".webp") w0).2
  = Err (SystemError EISDIR sys_open "/tmp/webp-converter-js")
  /\ (convertToWebpBuffer linux_x64 sample_png "/.." "-q 80" VUndefined boot).2
     = Err (SystemError ERR_FS_EISDIR sys_rm "/tmp/webp-converter-js").
Proof. split; vm_compute; reflexivity. Qed.




(** ** III.6  The tool invoker (C5) and the argument list (C9) *)

Lemma executeCommand_run (h : host) (binaryPath : string)
      (args : list string) (w : world) :
  executeCommand h binaryPath args w
  = let w0 := log (EvExecFile binaryPath args) w in
    let w1 := with_fs (run h binaryPath args (fs w)).1 w0 in
    let text := "[webp-lib error]: Failed to execute " +:+ binaryPath in
    if spawn_arguments_ok binaryPath args then
      match (run h binaryPath args (fs w)).2 with
      | SpawnFailed code =>
          (log (EvConsoleError text (SpawnError code binaryPath)) w1,
           Err (SpawnError code binaryPath))
      | Exited status stdout stderr =>
          if overruns stdout stderr then
            (log (EvConsoleError
                    text (RangeError "ERR_CHILD_PROCESS_STDIO_MAXBUFFER")) w1,
             Err (RangeError "ERR_CHILD_PROCESS_STDIO_MAXBUFFER"))
          else if (status =? 0)%Z then
            (if JsString.is_empty stderr then w1
             else log (EvConsoleWarn ("[webp-lib stderr]: " +:+ stderr)) w1,
             Ok (stdout, stderr))
          else
            (log (EvConsoleError text (ChildError status stdout stderr)) w1,
             Err (ChildError status stdout stderr))
      | Killed signal stdout stderr =>
          if overruns stdout stderr then
            (log (EvConsoleError
                    text (RangeError "ERR_CHILD_PROCESS_STDIO_MAXBUFFER")) w1,
             Err (RangeError "ERR_CHILD_PROCESS_STDIO_MAXBUFFER"))
          else
            (log (EvConsoleError text (SignalError signal stdout stderr)) w1,
             Err (SignalError signal stdout stderr))
      end
    else
      (log (EvConsoleError text (TypeError "ERR_INVALID_ARG_VALUE")) w0,
       Err (TypeError "ERR_INVALID_ARG_VALUE")).
Proof.
  unfold executeCommand, try_catch, bind, execFile. cbv zeta.
  destruct (spawn_arguments_ok binaryPath args); [|reflexivity].
  destruct (run h binaryPath args (fs w)) as [t [code|status out err|sig out err]];
    simpl; [reflexivity| |now destruct (overruns out err)].
  destruct (overruns out err); [reflexivity|].
  destruct (status =? 0)%Z; [|reflexivity].
  now destruct err.
Qed.

(** the case analysis of [executeCommand_run] *)
Ltac child_cases h :=
  destruct (spawn_arguments_ok _ _);
  [ destruct ((run h _ _ _).2) as [code|status out err|sig out err];
    [ | destruct (overruns out err);
        [ | destruct (status =? 0)%Z; [destruct (JsString.is_empty err)|] ]
      | destruct (overruns out err) ]
  | ].

Lemma byteLength_repeated (n : nat) :
  Buffer.byteLength (JsString.repeated n ".") = N.of_nat n.
Proof.
  induction n as [|n IH]; [reflexivity|].
  change (Buffer.byteLength (JsString.repeated (S n) "."))
    with (1 + Buffer.byteLength (JsString.repeated n "."))%N.
  rewrite IH. lia.
Qed.

Lemma verbose_output_overruns : overruns verbose_output "" = true.
Proof.
  unfold overruns, verbose_output.
  rewrite byteLength_repeated, N2Nat.id. reflexivity.
Qed.

Lemma executeCommand_overrun (h : host) (binaryPath : string)
      (args : list string) (w : world) (status : Z) (out err : string) :
  spawn_arguments_ok binaryPath args = true ->
  (run h binaryPath args (fs w)).2 = Exited status out err ->
  overruns out err = true ->
  (executeCommand h binaryPath args w).2
  = Err (RangeError "ERR_CHILD_PROCESS_STDIO_MAXBUFFER").
Proof.
  intros Hok Hc Hov. rewrite executeCommand_run. cbv zeta.
  now rewrite Hok, Hc, Hov.
Qed.

Lemma run_verbose (file : string) (args : list string) (t : Fs.tree) :
  (run linux_x64_verbose file args t).2 = Exited 0 verbose_output "".
Proof. reflexivity. Qed.

(** C5, as worded, fails: a child that exits with status zero after
    printing more than [maxBuffer] holds makes the call reject. *)
Lemma fails_on_spawn_or_status_only_refuted :
  ~ fails_on_spawn_or_status_only linux_x64_verbose
      "/app/bin/libwebp_linux/bin/cwebp" ["in.png"; "-o"; "out.webp"] boot.
Proof.
  intros [_ H]. specialize (H verbose_output "" (run_verbose _ _ _)).
  rewrite (executeCommand_overrun linux_x64_verbose
             "/app/bin/libwebp_linux/bin/cwebp" ["in.png"; "-o"; "out.webp"]
             boot 0%Z verbose_output "" eq_refl (run_verbose _ _ _)
             verbose_output_overruns) in H.
  discriminate H.
Qed.

(** C5 (amended): [executeCommand] fails if and only if [execFile] does:
    the arguments are refused, the child cannot be spawned, a signal ends
    it, it exits with a non-zero status, or one of its two streams overruns
    [maxBuffer]; when it exits with status zero within [maxBuffer] the call
    resolves with the captured pair, whatever the standard error text
    holds. *)
Theorem executeCommand_fails_iff (h : host) (binaryPath : string)
        (args : list string) (w : world) :
  let child := (run h binaryPath args (fs w)).2 in
  let r := (executeCommand h binaryPath args w).2 in
  (is_ok r = false <->
   spawn_arguments_ok binaryPath args = false
   \/ (exists code, child = SpawnFailed code)
   \/ (exists signal stdout stderr, child = Killed signal stdout stderr)
   \/ (exists status stdout stderr,
         child = Exited status stdout stderr
         /\ (status <> 0%Z \/ overruns stdout stderr = true)))
  /\ (forall stdout stderr,
        spawn_arguments_ok binaryPath args = true ->
        child = Exited 0 stdout stderr ->
        overruns stdout stderr = false ->
        r = Ok (stdout, stderr))
  /\ r = (execFile h binaryPath args w).2
  /\ (spawn_arguments_ok binaryPath args = false ->
      r = Err (TypeError "ERR_INVALID_ARG_VALUE")
      /\ fs (executeCommand h binaryPath args w).1 = fs w).
Proof.
  cbv zeta. rewrite executeCommand_run. unfold execFile. cbv zeta.
  destruct (spawn_arguments_ok binaryPath args) eqn:Hok.
  2:{ split; [split; [now left|reflexivity]|].
      split; [discriminate|]. split; [reflexivity|]. now split. }
  destruct (run h binaryPath args (fs w)) as [t [code|status out err|sig out err]];
    simpl.
  - split; [split; [intros _; right; left; now exists code|reflexivity]|].
    split; [discriminate|]. split; [reflexivity|discriminate].
  - destruct (overruns out err) eqn:Hov; simpl.
    + split.
      { split; [|reflexivity]. intros _. do 3 right.
        exists status, out, err. split; [reflexivity|now right]. }
      split; [|split; [reflexivity|discriminate]].
      intros o e _ [= _ <- <-] Hno. congruence.
    + destruct (Z.eqb_spec status 0) as [->|Hs]; simpl.
      * split.
        { split; [discriminate|].
          intros [Hc|[[c Hc]|[(g & o & e & Hc)|(s & o & e & Hc & Hd)]]];
            try discriminate.
          injection Hc as <- <- <-. destruct Hd; [contradiction|congruence]. }
        split; [|split; [reflexivity|discriminate]].
        now intros o e _ [= <- <-] _.
      * split.
        { split; [|reflexivity]. intros _. do 3 right.
          exists status, out, err. split; [reflexivity|now left]. }
        split; [|split; [reflexivity|discriminate]].
        intros o e _ [= -> _ _]. contradiction.
  - split.
    { split; [intros _; right; right; left; now exists sig, out, err|].
      now destruct (overruns out err). }
    split; [discriminate|].
    split; [now destruct (overruns out err)|discriminate].
Qed.

Example stderr_is_not_failure :
  (executeCommand
     {| platform := "linux"; arch := "x64"; dirname := "/app/src";
        tmpdir := "/tmp"; cwd := [];
        uuid_v4 := fun _ => id_a;
        run := fun _ _ t => (t, Exited 0 "" "Saving file 'out.webp'") |}
     "/app/bin/libwebp_linux/bin/cwebp" ["in.png"; "-o"; "out.webp"] boot).2
  = Ok ("", "Saving file 'out.webp'").
Proof. reflexivity. Qed.

(** C9: the argument list handed to the [cwebp] executable is the options
    string split at each single space, then the input path, "-o", the
    output path and the logging argument, "-quiet" unless given; an empty
    options string and doubled spaces contribute empty arguments. *)
Theorem cwebp_argument_list (h : host) (input_image output_image opt : string)
        (logging : option string) (w : world) :
  cwebp_args input_image output_image opt logging
  = JsString.split_on " " opt
    ++ [input_image; "-o"; output_image; default "-quiet" logging]
  /\ List.last (cwebp_args input_image output_image opt None) "" = "-quiet"
  /\ JsString.join " " (JsString.split_on " " opt) = opt
  /\ Forall (fun a => JsString.mem " " a = false) (JsString.split_on " " opt)
  /\ cwebp_args input_image output_image "" logging
     = [""; input_image; "-o"; output_image; default "-quiet" logging]
  /\ (forall a b,
        JsString.split_on " " (a +:+ "  " +:+ b)
        = JsString.split_on " " a ++ [""] ++ JsString.split_on " " b)
  /\ (forall segs,
        platformConfig !! platform_key h = Some segs ->
        let bin := Path.join_paths (dirname h :: ".." :: "bin" :: segs) in
        cwebp h input_image output_image opt logging w
        = executeCommand h bin
            (cwebp_args input_image output_image opt logging) w
        /\ In (EvExecFile bin
                 (cwebp_args input_image output_image opt logging))
              (trace (cwebp h input_image output_image opt logging w).1)).
Proof.
  split; [reflexivity|].
  split.
  { unfold cwebp_args. simpl default.
    change [input_image; "-o"; output_image; "-quiet"]
      with ([input_image; "-o"; output_image] ++ ["-quiet"]).
    rewrite app_assoc. apply last_last. }
  split; [apply join_split_on|].
  split; [apply split_on_pieces|].
  split; [reflexivity|].
  split.
  { intros a b.
    change (a +:+ "  " +:+ b) with (a +:+ String " " (String " " b)).
    rewrite split_on_app. reflexivity. }
  intros segs Hk. cbv zeta.
  assert (Hrun : cwebp h input_image output_image opt logging w
                 = executeCommand h
                     (Path.join_paths (dirname h :: ".." :: "bin" :: segs))
                     (cwebp_args input_image output_image opt logging) w).
  { unfold cwebp, bind, getCwebpPath. now rewrite Hk. }
  split; [exact Hrun|].
  rewrite Hrun, executeCommand_run. cbv zeta.
  child_cases h; in_trace.
Qed.

Example cwebp_args_q80 :
  cwebp_args "in.png" "out.webp" "-q 80" None
  = ["-q"; "80"; "in.png"; "-o"; "out.webp"; "-quiet"].
Proof. reflexivity. Qed.

Example cwebp_args_doubled_space :
  cwebp_args "in.png" "out.webp" "-q  80" (Some "-v")
  = ["-q"; ""; "80"; "in.png"; "-o"; "out.webp"; "-v"].
Proof. reflexivity. Qed.

(** ** III.7  The temp directory resolver (C6, C10) *)

Lemma mkdirSync_keeps (t : Fs.tree) (cwd : Fs.loc) (p : string)
      (l : Fs.loc) (n : Fs.node) :
  Fs.node_at t l = Some n ->
  Fs.node_at (Fs.mkdirSync t cwd p).1 l = Some n.
Proof.
  intros Hl. unfold Fs.mkdirSync.
  destruct (JsString.is_empty p); [exact Hl|].
  destruct (Fs.node_at t (Fs.start cwd p)) as [[d|]|]; try exact Hl.
  pose proof (mkdirs_keeps (Fs.components p) t (Fs.start cwd p) l n Hl) as Hk.
  destruct (Fs.mkdirs t (Fs.start cwd p) (Fs.components p)) as [t' [e|]];
    exact Hk.
Qed.

(** On a clean absolute root the default directory is the plain
    concatenation. *)
Example default_temp_dir_tmp :
  default_temp_dir linux_x64 = "/tmp/webp-converter-js".
Proof. reflexivity. Qed.

(** C6: given a non-empty [customPath] the resolver returns that very
    text, given none it returns [path.join(os.tmpdir(), "webp-converter-js")],
    which for a temp root written as a clean absolute path is the root
    followed by "/webp-converter-js"; in both cases the directory exists
    when it returns, with all its parents and with nothing that was there
    before lost; if the directory is already there the call succeeds with
    no change and no console output; and it fails only with the error of
    the refused [mkdir]. *)
Theorem getTempPath_contract (h : host) (customPath : jsval)
        (target : string) (w : world) :
  (customPath = VStr target /\ target <> "")
  \/ (customPath = VUndefined /\ target = default_temp_dir h) ->
  let out := getTempPath h customPath w in
  (forall v, out.2 = Ok v ->
     v = VStr target
     /\ Fs.is_directory (fs out.1) (cwd h) target = true
     /\ trace out.1 = trace w ++ [EvMkdir target])
  /\ (Fs.is_directory (fs w) (cwd h) target = true ->
      out.2 = Ok (VStr target) /\ fs out.1 = fs w
      /\ trace out.1 = trace w ++ [EvMkdir target])
  /\ (forall e, out.2 = Err e ->
      (Fs.mkdirSync (fs w) (cwd h) target).2 = Err e
      /\ Fs.is_directory (fs out.1) (cwd h) target = false
      /\ exists code, e = SystemError code sys_mkdir target)
  /\ (forall l n, Fs.node_at (fs w) l = Some n ->
                  Fs.node_at (fs out.1) l = Some n)
  /\ (forall segs,
        segs <> [] -> Forall (fun x => Path.plain_segment x = true) segs ->
        tmpdir h = "/" +:+ JsString.join "/" segs ->
        default_temp_dir h = tmpdir h +:+ "/webp-converter-js").
Proof.
  intros Hc. cbv zeta.
  assert (Hlit : forall segs,
             segs <> [] -> Forall (fun x => Path.plain_segment x = true) segs ->
             tmpdir h = "/" +:+ JsString.join "/" segs ->
             default_temp_dir h = tmpdir h +:+ "/webp-converter-js").
  { intros segs Hne Hsegs Htmp. unfold default_temp_dir. rewrite Htmp.
    now apply join_paths_clean. }
  assert (Ht : targetPath h customPath = VStr target).
  { destruct Hc as [[-> Hne]|[-> ->]]; [|reflexivity].
    unfold targetPath. simpl. now destruct target. }
  rewrite (getTempPath_string h _ _ w Ht).
  pose proof (mkdirSync_keeps (fs w) (cwd h) target) as Hkeep.
  destruct (Fs.mkdirSync (fs w) (cwd h) target) as [t [[]|e]] eqn:Em; simpl.
  - split; [|split; [|split; [|split]]].
    + intros v [= <-]. split; [reflexivity|]. split; [|reflexivity].
      now apply mkdirSync_ok with (t := fs w).
    + intros Hd. rewrite (mkdirSync_existing _ _ _ Hd) in Em.
      injection Em as <-. auto.
    + discriminate.
    + exact Hkeep.
    + exact Hlit.
  - destruct (mkdirSync_fails _ _ _ _ _ Em) as (code & -> & Hnot).
    split; [|split; [|split; [|split]]].
    + discriminate.
    + intros Hd. rewrite (mkdirSync_existing _ _ _ Hd) in Em. discriminate.
    + intros e [= <-]. split; [reflexivity|]. split; [exact Hnot|].
      now exists code.
    + exact Hkeep.
    + exact Hlit.
Qed.

(** A custom directory three levels deep on a disk that has none of them,
    and a second call on the result. *)
Lemma getTempPath_contract_witness :
  let out := getTempPath linux_x64 (VStr "/srv/cache/webp") boot in
  out.2 = Ok (VStr "/srv/cache/webp")
  /\ Fs.is_directory (fs boot) (cwd linux_x64) "/srv/cache/webp" = false
  /\ Fs.is_directory (fs out.1) (cwd linux_x64) "/srv/cache/webp" = true
  /\ Fs.is_directory (fs out.1) (cwd linux_x64) "/srv/cache" = true
  /\ (getTempPath linux_x64 (VStr "/srv/cache/webp") out.1).2
     = Ok (VStr "/srv/cache/webp").
Proof.
  cbv zeta.
  assert (Hc : (VStr "/srv/cache/webp" = VStr "/srv/cache/webp"
                /\ "/srv/cache/webp" <> "")
               \/ (VStr "/srv/cache/webp" = VUndefined
                   /\ "/srv/cache/webp" = default_temp_dir linux_x64))
    by (left; split; [reflexivity | discriminate]).
  destruct (getTempPath_contract linux_x64 (VStr "/srv/cache/webp")
              "/srv/cache/webp" boot Hc) as (Hok & _).
  assert (Hr : (getTempPath linux_x64 (VStr "/srv/cache/webp") boot).2
               = Ok (VStr "/srv/cache/webp")) by (vm_compute; reflexivity).
  destruct (Hok _ Hr) as (_ & Hdir & _).
  destruct (getTempPath_contract linux_x64 (VStr "/srv/cache/webp")
              "/srv/cache/webp"
              (getTempPath linux_x64 (VStr "/srv/cache/webp") boot).1 Hc)
    as (_ & Hagain & _).
  split; [exact Hr|]. split; [vm_compute; reflexivity|].
  split; [exact Hdir|]. split; [vm_compute; reflexivity|].
  exact (proj1 (Hagain Hdir)).
Defined.

(** A regular file in the way: the creation is refused. *)
Example getTempPath_denied :
  let disk := <[ ["srv"] := Fs.File [] ]> fresh_disk in
  (getTempPath linux_x64 (VStr "/srv/cache")
               {| fs := disk; drawn := 0; trace := [] |}).2
  = Err (SystemError ENOTDIR sys_mkdir "/srv/cache").
Proof. vm_compute. reflexivity. Qed.

(** C10: an empty string, like every falsy value, is not used as the
    directory: the resolver behaves as if no [customPath] had been given
    and returns the default directory. *)
Theorem getTempPath_falsy (h : host) (customPath : jsval) (w : world) :
  truthy customPath = false ->
  getTempPath h customPath w = getTempPath h VUndefined w
  /\ targetPath h customPath = VStr (default_temp_dir h)
  /\ (forall v, (getTempPath h customPath w).2 = Ok v ->
                v = VStr (default_temp_dir h)).
Proof.
  intros Hf.
  assert (Ht : targetPath h customPath = VStr (default_temp_dir h))
    by (unfold targetPath; now rewrite Hf).
  split; [|split; [exact Ht|]].
  - unfold getTempPath. rewrite Ht. reflexivity.
  - intros v Hv. rewrite (getTempPath_string h _ _ w Ht) in Hv.
    destruct (Fs.mkdirSync _ _ _) as [t [[]|e]]; simpl in Hv; congruence.
Qed.

Lemma getTempPath_falsy_witness :
  getTempPath linux_x64 (VStr "") boot = getTempPath linux_x64 VUndefined boot
  /\ targetPath linux_x64 (VStr "") = VStr "/tmp/webp-converter-js"
  /\ (getTempPath linux_x64 (VStr "") boot).2
     = Ok (VStr "/tmp/webp-converter-js").
Proof.
  destruct (getTempPath_falsy linux_x64 (VStr "") boot eq_refl)
    as (Hsame & Ht & _).
  split; [exact Hsame|]. split; [exact Ht|]. vm_compute. reflexivity.
Defined.

Example falsy_values :
  map truthy [VUndefined; VNull; VBool false; VNum 0; VNaN; VStr ""]
  = [false; false; false; false; false; false].
Proof. reflexivity. Qed.

(** ** III.8  The base64 adapter (C8, C3) *)

Lemma base64str2webp_run (h : host) (base64str image_type opt : string)
      (extra_path : jsval) (w : world) :
  base64str2webp h base64str image_type opt extra_path w
  = ((convertToWebpBuffer h (Buffer.from_base64 base64str) image_type opt
                          extra_path w).1,
     map_result Buffer.to_base64
       (convertToWebpBuffer h (Buffer.from_base64 base64str) image_type opt
                            extra_path w).2).
Proof.
  unfold base64str2webp, bind.
  destruct (convertToWebpBuffer h _ image_type opt extra_path w) as [w' [b|e]];
    reflexivity.
Qed.

(** C8: [base64str2webp] is the composition of base64 decoding, the
    buffer pipeline on the same tag, options and override, and base64
    encoding of its result: the same value or error, and the same world
    afterwards. *)
Theorem base64str2webp_is_composition (h : host)
        (base64str image_type opt : string) (extra_path : jsval) (w : world) :
  base64str2webp h base64str image_type opt extra_path w
  = convertBase64_composed h base64str image_type opt extra_path w.
Proof.
  rewrite base64str2webp_run. unfold convertBase64_composed, buffer2webp.
  now destruct (convertToWebpBuffer h _ image_type opt extra_path w).
Qed.

Example base64_round_trip_on_sample_host :
  (base64str2webp linux_x64 "aGVsbG8=" "png" "-q 80" VUndefined boot).2
  = Ok (Buffer.to_base64 (Buffer.of_text "RIFFhello")).
Proof. vm_compute. reflexivity. Qed.

(** C3, as worded, fails: the text "not-valid-base64!!" is decoded to
    twelve bytes, which are written to a temp file in a freshly created
    temp directory and handed to the tool. *)
Lemma rejects_at_decode_refuted :
  ~ rejects_at_decode linux_x64 "not-valid-base64!!" "jpg" "-q 80"
                      VUndefined boot.
Proof.
  intros H. destruct (H eq_refl) as (_ & _ & Htrace).
  vm_compute in Htrace. discriminate.
Qed.

Example malformed_base64_reaches_disk :
  let out := base64str2webp linux_x64 "not-valid-base64!!" "jpg" "-q 80"
                            VUndefined boot in
  firstn 3 (trace out.1)
  = [EvUuid id_a;
     EvMkdir "/tmp/webp-converter-js";
     EvWriteFile ("/tmp/webp-converter-js/" +:+ id_a +:+ ".jpg")
                 (Buffer.from_base64 "not-valid-base64!!")]
  /\ Fs.is_directory (fs boot) (cwd linux_x64) "/tmp/webp-converter-js" = false
  /\ Fs.is_directory (fs out.1) (cwd linux_x64) "/tmp/webp-converter-js" = true.
Proof. repeat split; vm_compute; reflexivity. Qed.

Section Emits.
Variable h : host.
Variable P : event -> bool.

Lemma emits_ret {A} (a : A) : emits P (ret a).
Proof. intros w. exists []. simpl. now rewrite app_nil_r. Qed.

Lemma emits_throw {A} (e : error) : emits P (@throw A e).
Proof. intros w. exists []. simpl. now rewrite app_nil_r. Qed.

Lemma emits_bind {A B} (m : M A) (k : A -> M B) :
  emits P m -> (forall a, emits P (k a)) -> emits P (bind m k).
Proof.
  intros Hm Hk w. unfold bind. destruct (Hm w) as (e1 & H1 & F1).
  destruct (m w) as [w1 [a|e]]; simpl in *.
  - destruct (Hk a w1) as (e2 & H2 & F2). exists (e1 ++ e2).
    rewrite H2, H1, app_assoc, forallb_app, F1, F2. auto.
  - now exists e1.
Qed.

Lemma emits_try_catch {A} (m : M A) (k : error -> M A) :
  emits P m -> (forall e, emits P (k e)) -> emits P (try_catch m k).
Proof.
  intros Hm Hk w. unfold try_catch. destruct (Hm w) as (e1 & H1 & F1).
  destruct (m w) as [w1 [a|e]]; simpl in *.
  - now exists e1.
  - destruct (Hk e w1) as (e2 & H2 & F2). exists (e1 ++ e2).
    rewrite H2, H1, app_assoc, forallb_app, F1, F2. auto.
Qed.

Lemma emits_try_finally {A} (m : M A) (c : M unit) :
  emits P m -> emits P c -> emits P (try_finally m c).
Proof.
  intros Hm Hc w. unfold try_finally. destruct (Hm w) as (e1 & H1 & F1).
  destruct (m w) as [w1 r]; simpl in *.
  destruct (Hc w1) as (e2 & H2 & F2).
  destruct (c w1) as [w2 [u|e]]; simpl in *; exists (e1 ++ e2);
    rewrite H2, H1, app_assoc, forallb_app, F1, F2; auto.
Qed.

Lemma emits_one {A} (m : M A) (ev : event) :
  (forall w, trace (m w).1 = trace w ++ [ev]) -> P ev = true -> emits P m.
Proof.
  intros Hm Hev w. exists [ev]. simpl. now rewrite Hm, Hev.
Qed.

Lemma emits_uuid :
  (forall id, P (EvUuid id) = true) -> emits P (uuid h).
Proof. intros HP w. exists [EvUuid (uuid_v4 h (drawn w))]. simpl. now rewrite HP. Qed.

Lemma emits_mkdirSync (v : jsval) :
  (forall p, P (EvMkdir p) = true) -> emits P (fs_mkdirSync h v).
Proof.
  intros HP. unfold fs_mkdirSync. apply emits_bind.
  - destruct v; first [apply emits_ret | apply emits_throw].
  - intros p. apply (emits_one _ (EvMkdir p)); [|apply HP].
    intros w. now destruct (Fs.mkdirSync (fs w) (cwd h) p).
Qed.

Lemma emits_writeFile (p : string) (data : list byte) :
  P (EvWriteFile p data) = true -> emits P (fs_writeFile h p data).
Proof.
  apply emits_one. intros w. unfold fs_writeFile.
  now destruct (Fs.writeFile (fs w) (cwd h) p data).
Qed.

Lemma emits_readFile (p : string) :
  P (EvReadFile p) = true -> emits P (fs_readFile h p).
Proof. apply emits_one. reflexivity. Qed.

Lemma emits_rm (p : string) : P (EvRm p) = true -> emits P (fs_rm h p).
Proof.
  apply emits_one. intros w. unfold fs_rm.
  now destruct (Fs.rm_force (fs w) (cwd h) p).
Qed.

Lemma emits_console_error (text : string) (e : error) :
  P (EvConsoleError text e) = true -> emits P (console_error text e).
Proof. apply emits_one. reflexivity. Qed.

Lemma emits_console_warn (text : string) :
  P (EvConsoleWarn text) = true -> emits P (console_warn text).
Proof. apply emits_one. reflexivity. Qed.

Lemma emits_execFile (file : string) (args : list string) :
  P (EvExecFile file args) = true -> emits P (execFile h file args).
Proof.
  apply emits_one. intros w. unfold execFile. cbv zeta.
  destruct (spawn_arguments_ok file args); [|reflexivity].
  destruct (run h file args (fs w)) as [t [code|status out err|sig out err]];
    [reflexivity| |now destruct (overruns out err)].
  destruct (overruns out err); [reflexivity|]. now destruct (status =? 0)%Z.
Qed.

End Emits.

Ltac emits_steps :=
  repeat first
    [ apply emits_ret | apply emits_throw
    | apply emits_uuid; intros; reflexivity
    | apply emits_mkdirSync; intros; reflexivity
    | apply emits_writeFile; reflexivity
    | apply emits_readFile; reflexivity
    | apply emits_rm; reflexivity
    | apply emits_console_error; reflexivity
    | apply emits_console_warn; reflexivity
    | apply emits_execFile; reflexivity
    | apply emits_bind; [|intros ?]
    | apply emits_try_catch; [|intros ?]
    | apply emits_try_finally ].

Section PipelineTraces.
Variable h : host.

Lemma emits_cleanup (P : event -> bool) (i o : string) :
  (forall p, P (EvRm p) = true) -> emits P (cleanup h i o).
Proof.
  intros HP. unfold cleanup. apply emits_bind; [|intros ?]; apply emits_rm;
    apply HP.
Qed.

Lemma emits_executeCommand (binaryPath : string) (args : list string) :
  emits any_event (executeCommand h binaryPath args).
Proof.
  unfold executeCommand. apply emits_try_catch; [|intros e; emits_steps].
  apply emits_bind; [apply emits_execFile; reflexivity|].
  intros [out err]. apply emits_bind; [|intros ?; apply emits_ret].
  destruct (negb (JsString.is_empty err));
    [apply emits_console_warn; reflexivity | apply emits_ret].
Qed.

Lemma emits_cwebp (i o opt : string) (logging : option string) :
  emits any_event (cwebp h i o opt logging).
Proof.
  unfold cwebp, getCwebpPath. apply emits_bind.
  - destruct (platformConfig !! platform_key h);
      [apply emits_ret | apply emits_throw].
  - intros bin. apply emits_executeCommand.
Qed.

Lemma emits_attempt (inputBuffer : list byte) (opt i o : string) :
  emits any_event (attempt h inputBuffer opt i o).
Proof.
  unfold attempt. apply emits_try_catch; [|intros e; emits_steps].
  apply emits_bind; [apply emits_writeFile; reflexivity|]. intros _.
  apply emits_bind; [apply emits_cwebp|]. intros _.
  apply emits_bind; [apply emits_readFile; reflexivity|]. intros b.
  apply emits_ret.
Qed.

(** Once the pair is computed, the rest of the call only adds events. *)
Lemma body_extends_trace (inputBuffer : list byte) (opt i o : string)
      (w0 : world) (ev : event) :
  In ev (trace w0) ->
  In ev (trace (try_finally (attempt h inputBuffer opt i o)
                            (cleanup h i o) w0).1).
Proof.
  intros Hin.
  destruct (emits_try_finally any_event _ _
              (emits_attempt inputBuffer opt i o)
              (emits_cleanup any_event i o (fun _ => eq_refl)) w0)
    as (evs & -> & _).
  apply in_or_app. now left.
Qed.

Lemma temp_pair_starts (extra_path : jsval) (imageType : string) (w : world) :
  (exists evs, trace (temp_pair h extra_path imageType w).1
               = trace w ++ EvUuid (uuid_v4 h (drawn w)) :: evs)
  /\ (forall d, targetPath h extra_path = VStr d ->
                In (EvMkdir d) (trace (temp_pair h extra_path imageType w).1)).
Proof.
  split.
  - unfold temp_pair, bind at 1. unfold uuid at 1.
    set (w1 := {| fs := fs w; drawn := S (drawn w);
                  trace := trace w ++ [EvUuid (uuid_v4 h (drawn w))] |}).
    set (rest := bind _ _).
    assert (Hrest : emits any_event rest).
    { unfold rest, getTempPath, path_join, as_path. emits_steps.
      all: match goal with
           | |- context [match ?v with _ => _ end] => destruct v
           end; emits_steps. }
    destruct (Hrest w1) as (evs & -> & _). exists evs.
    unfold w1; simpl. now rewrite <- app_assoc.
  - intros d Hd. unfold temp_pair, bind, uuid.
    rewrite (getTempPath_string h _ _ _ Hd).
    destruct (Fs.mkdirSync _ (cwd h) d) as [t [[]|e]]; in_trace.
Qed.

(** C3 (amended): for every input string, well formed or not, the decode
    step raises nothing; the decoded bytes go to the pipeline, which draws
    its identifier and asks for the temp directory before anything else,
    so the file system is reached for every input; [base64str2webp]
    rejects exactly when the pipeline does, with the pipeline's error. *)
Theorem base64_input_always_reaches_pipeline
        (base64str image_type opt : string) (extra_path : jsval) (w : world) :
  let out := base64str2webp h base64str image_type opt extra_path w in
  let inner := convertToWebpBuffer h (Buffer.from_base64 base64str)
                                   image_type opt extra_path w in
  out.1 = inner.1
  /\ (forall e, out.2 = Err e <-> inner.2 = Err e)
  /\ (exists evs,
        trace out.1 = trace w ++ EvUuid (uuid_v4 h (drawn w)) :: evs)
  /\ (forall d, targetPath h extra_path = VStr d ->
                In (EvMkdir d) (trace out.1)).
Proof.
  cbv zeta. rewrite base64str2webp_run. simpl fst; simpl snd.
  split; [reflexivity|]. split.
  { intros e. destruct (convertToWebpBuffer h _ _ _ _ w).2; simpl;
      split; congruence. }
  rewrite convertToWebpBuffer_steps.
  destruct (temp_pair_starts extra_path image_type w) as [(evs & Hevs) Hmk].
  destruct (temp_pair h extra_path image_type w) as [w0 [[i o]|e]];
    simpl in *.
  - split.
    + destruct (emits_try_finally any_event _ _
                  (emits_attempt (Buffer.from_base64 base64str) opt i o)
                  (emits_cleanup any_event i o (fun _ => eq_refl)) w0)
        as (evs' & -> & _).
      exists (evs ++ evs'). rewrite Hevs, <- app_assoc. reflexivity.
    + intros d Hd. apply body_extends_trace. now apply Hmk.
  - split; [now exists evs | exact Hmk].
Qed.

End PipelineTraces.

(** ** III.9  An unsupported platform (C7) *)

(** C7, as worded, fails: on the ARM host the unsupported-platform error
    does come out, but after the temp directory was created and the input
    temp file written (and then removed again). *)
Lemma fails_before_writes_refuted :
  ~ fails_before_writes linux_arm64 sample_png "png" "-q 80" VUndefined boot.
Proof.
  intros H. destruct (H eq_refl) as (_ & Hw).
  vm_compute in Hw. discriminate.
Qed.

Example unsupported_platform_trace :
  trace (buffer2webp linux_arm64 sample_png "png" "-q 80" VUndefined boot).1
  = [EvUuid id_a;
     EvMkdir "/tmp/webp-converter-js";
     EvWriteFile ("/tmp/webp-converter-js/" +:+ id_a +:+ ".png") sample_png;
     EvConsoleError "WebP conversion failed:" (unsupported "linux-arm64");
     EvRm ("/tmp/webp-converter-js/" +:+ id_a +:+ ".png");
     EvRm ("/tmp/webp-converter-js/" +:+ id_a +:+ ".webp")].
Proof. vm_compute. reflexivity. Qed.

Section Unsupported.
Variable h : host.
Hypothesis no_binary : platformConfig !! platform_key h = None.

Lemma cwebp_unsupported (i o opt : string) (logging : option string)
      (w : world) :
  cwebp h i o opt logging w = (w, Err (unsupported (platform_key h))).
Proof. unfold cwebp, bind, getCwebpPath. now rewrite no_binary. Qed.

Lemma attempt_unsupported (inputBuffer : list byte) (opt i o : string)
      (w : world) :
  attempt h inputBuffer opt i o w
  = match fs_writeFile h i inputBuffer w with
    | (wa, Err e) =>
        (log (EvConsoleError "WebP conversion failed:" e) wa, Err e)
    | (wa, Ok _) =>
        (log (EvConsoleError "WebP conversion failed:"
                             (unsupported (platform_key h))) wa,
         Err (unsupported (platform_key h)))
    end.
Proof.
  unfold attempt, try_catch, bind.
  destruct (fs_writeFile h i inputBuffer w) as [wa [[]|e]]; [|reflexivity].
  now rewrite cwebp_unsupported.
Qed.

Lemma emits_attempt_unsupported (inputBuffer : list byte) (opt i o : string) :
  emits no_exec (attempt h inputBuffer opt i o).
Proof.
  intros w. rewrite attempt_unsupported.
  destruct (emits_writeFile h no_exec i inputBuffer eq_refl w)
    as (evs & Hevs & Hall).
  destruct (fs_writeFile h i inputBuffer w) as [wa [[]|e]]; simpl in *;
    eexists (evs ++ [_]); rewrite Hevs, <- app_assoc, forallb_app, Hall;
    split; reflexivity.
Qed.

Lemma emits_temp_pair_no_exec (extra_path : jsval) (imageType : string) :
  emits no_exec (temp_pair h extra_path imageType).
Proof.
  unfold temp_pair, getTempPath, path_join, as_path. emits_steps.
  all: match goal with
       | |- context [match ?v with _ => _ end] => destruct v
       end; emits_steps.
Qed.

Lemma convert_unsupported_no_exec (inputBuffer : list byte)
      (imageType opt : string) (extra_path : jsval) :
  emits no_exec (convertToWebpBuffer h inputBuffer imageType opt extra_path).
Proof.
  intros w. rewrite convertToWebpBuffer_steps.
  destruct (emits_temp_pair_no_exec extra_path imageType w)
    as (evs & Hevs & Hall).
  destruct (temp_pair h extra_path imageType w) as [w0 [[i o]|e]];
    simpl in *; [|now exists evs].
  destruct (emits_try_finally no_exec _ _
              (emits_attempt_unsupported inputBuffer opt i o)
              (emits_cleanup h no_exec i o (fun _ => eq_refl)) w0)
    as (evs' & -> & Hall').
  exists (evs ++ evs'). now rewrite Hevs, <- app_assoc, forallb_app, Hall, Hall'.
Qed.

Lemma convert_unsupported_fails (inputBuffer : list byte)
      (imageType opt : string) (extra_path : jsval) (w : world) :
  is_ok (convertToWebpBuffer h inputBuffer imageType opt extra_path w).2
  = false.
Proof.
  rewrite convertToWebpBuffer_steps.
  destruct (temp_pair h extra_path imageType w) as [w0 [[i o]|e]];
    [|reflexivity].
  unfold try_finally. rewrite attempt_unsupported.
  destruct (fs_writeFile h i inputBuffer w0) as [wa [[]|e]];
    match goal with
    | |- context [cleanup h i o ?x] => destruct (cleanup h i o x) as [? [[]|?]]
    end; reflexivity.
Qed.

End Unsupported.

(** C7 (amended): on a platform-architecture combination with no
    configured binary path, no buffer or base64 conversion call resolves
    and none starts a child process.  The "Unsupported
    platform-architecture combination" error is raised at the tool step:
    when the temp directory was resolved and the input temp file written,
    it is the outcome of the [try] block, it is logged, and the write of
    the input file has happened before it. *)
Theorem unsupported_platform_fails_at_tool_step (h : host)
        (buffer : list byte) (base64str image_type opt : string)
        (extra_path : jsval) (w : world) :
  platformConfig !! platform_key h = None ->
  let out := buffer2webp h buffer image_type opt extra_path w in
  is_ok out.2 = false
  /\ is_ok (base64str2webp h base64str image_type opt extra_path w).2 = false
  /\ List.filter is_exec (trace out.1) = List.filter is_exec (trace w)
  /\ (forall w0 i o wa,
        temp_pair h extra_path image_type w = (w0, Ok (i, o)) ->
        fs_writeFile h i buffer w0 = (wa, Ok tt) ->
        (attempt h buffer opt i o w0).2 = Err (unsupported (platform_key h))
        /\ exists before after,
             trace out.1
             = before
               ++ EvWriteFile i buffer
               :: EvConsoleError "WebP conversion failed:"
                                 (unsupported (platform_key h))
               :: after).
Proof.
  intros Hk. cbv zeta. unfold buffer2webp.
  split; [now apply convert_unsupported_fails|].
  split.
  { rewrite base64str2webp_run. simpl snd.
    pose proof (convert_unsupported_fails h Hk (Buffer.from_base64 base64str)
                  image_type opt extra_path w) as Hf.
    now destruct (convertToWebpBuffer h _ _ _ _ w).2. }
  split.
  { destruct (convert_unsupported_no_exec h Hk buffer image_type opt
                extra_path w) as (evs & -> & Hall).
    rewrite List.filter_app.
    replace (List.filter is_exec evs) with (@nil event);
      [now rewrite app_nil_r|].
    clear -Hall. induction evs as [|ev evs IH]; [reflexivity|].
    simpl in *. apply andb_prop in Hall as [Hev Hall].
    unfold no_exec in Hev. apply negb_true_iff in Hev. rewrite Hev.
    now apply IH. }
  intros w0 i o wa Hp Hw.
  rewrite (attempt_unsupported h Hk), Hw. split; [reflexivity|].
  rewrite convertToWebpBuffer_steps, Hp. unfold try_finally.
  rewrite (attempt_unsupported h Hk), Hw.
  assert (Hwa : trace wa = trace w0 ++ [EvWriteFile i buffer]).
  { unfold fs_writeFile in Hw.
    destruct (Fs.writeFile (fs w0) (cwd h) i buffer) as [t r].
    now injection Hw as <- _. }
  set (w1 := log _ wa).
  destruct (emits_cleanup h any_event i o (fun _ => eq_refl) w1)
    as (evs & Hevs & _).
  exists (trace w0), evs.
  replace (trace _) with (trace (cleanup h i o w1).1)
    by now destruct (cleanup h i o w1) as [? [[]|?]].
  rewrite Hevs. unfold w1. simpl. rewrite Hwa, <- !app_assoc. reflexivity.
Qed.

Lemma unsupported_platform_witness :
  let out := buffer2webp linux_arm64 sample_png "png" "-q 80" VUndefined boot in
  out.2 = Err (unsupported "linux-arm64")
  /\ is_ok (base64str2webp linux_arm64 "aGVsbG8=" "png" "-q 80"
                           VUndefined boot).2 = false
  /\ List.filter is_exec (trace out.1) = [].
Proof.
  cbv zeta.
  destruct (unsupported_platform_fails_at_tool_step linux_arm64 sample_png
              "aGVsbG8=" "png" "-q 80" VUndefined boot eq_refl)
    as (_ & Hb & Hx & _).
  split; [vm_compute; reflexivity|]. split; [exact Hb | exact Hx].
Defined.

(** ** III.10  Temp path pairs (C4) *)

Section UuidFacts.
Import JsString.

Lemma matches_length (shape : list bool) (s : string) :
  Uuid.matches shape s = true -> String.length s = length shape.
Proof.
  revert s. induction shape as [|b shape IH]; intros [|c s] H;
    simpl in *; try discriminate; [reflexivity|].
  apply andb_prop in H as [_ H]. now rewrite (IH s H).
Qed.

Lemma matches_chars (shape : list bool) (s : string) :
  Uuid.matches shape s = true ->
  all_chars (fun c => Uuid.is_hex c || Ascii.eqb c "-") s = true.
Proof.
  revert s. induction shape as [|b shape IH]; intros [|c s] H;
    simpl in *; try discriminate; [reflexivity|].
  apply andb_prop in H as [Hc H]. rewrite (IH s H), andb_true_r.
  destruct b; rewrite Hc; [reflexivity | apply orb_true_r].
Qed.

Lemma is_uuid_length (id : string) :
  Uuid.is_uuid id = true -> String.length id = 36.
Proof. intros H. now rewrite (matches_length _ _ H). Qed.

Lemma is_uuid_no_sep (id : string) :
  Uuid.is_uuid id = true -> mem Path.sep id = false.
Proof.
  intros H. eapply all_chars_mem; [|exact (matches_chars _ _ H)]. reflexivity.
Qed.

(** An identifier followed by a dot and a slash-free tag is a file name. *)
Lemma temp_name_plain (id tag : string) :
  Uuid.is_uuid id = true -> mem Path.sep tag = false ->
  Path.plain_segment (input_name id tag) = true.
Proof.
  intros Hid Htag. pose proof (is_uuid_length id Hid) as Hlen.
  unfold Path.plain_segment, input_name.
  rewrite !mem_app, (is_uuid_no_sep id Hid), Htag.
  assert (Hl : String.length (id +:+ "." +:+ tag) = 37 + String.length tag)
    by (rewrite !append_length, Hlen; simpl; lia).
  destruct (String.eqb_spec (id +:+ "." +:+ tag) ".") as [E|_];
    [rewrite E in Hl; simpl in Hl; lia|].
  destruct (String.eqb_spec (id +:+ "." +:+ tag) "..") as [E|_];
    [rewrite E in Hl; simpl in Hl; lia|].
  destruct (id +:+ "." +:+ tag); [simpl in Hl; lia | reflexivity].
Qed.

Lemma temp_names_differ (id1 id2 tag1 tag2 : string) :
  Uuid.is_uuid id1 = true -> Uuid.is_uuid id2 = true -> id1 <> id2 ->
  input_name id1 tag1 <> input_name id2 tag2.
Proof.
  intros H1 H2 Hne Heq. apply Hne.
  apply (append_prefix_inj id1 id2 ("." +:+ tag1) ("." +:+ tag2));
    [|exact Heq].
  now rewrite (is_uuid_length _ H1), (is_uuid_length _ H2).
Qed.

Lemma temp_paths_differ (d1 d2 id1 id2 tag1 tag2 : string) :
  Uuid.is_uuid id1 = true -> Uuid.is_uuid id2 = true -> id1 <> id2 ->
  mem Path.sep tag1 = false -> mem Path.sep tag2 = false ->
  Path.join_paths [d1; input_name id1 tag1]
  <> Path.join_paths [d2; input_name id2 tag2].
Proof.
  intros H1 H2 Hne T1 T2 Heq.
  apply (temp_names_differ id1 id2 tag1 tag2 H1 H2 Hne).
  rewrite <- (basename_join_paths d1 _ (temp_name_plain _ _ H1 T1)).
  rewrite <- (basename_join_paths d2 _ (temp_name_plain _ _ H2 T2)).
  now rewrite Heq.
Qed.

End UuidFacts.

(** C4, as worded, fails: two calls in a row draw different identifiers,
    but the format tag of the first, "/../<second identifier>.webp", makes
    its input temp path the output temp path of the second. *)
Lemma pairs_disjoint_refuted :
  ~ pairs_disjoint linux_x64
      VUndefined ("/../" +:+ id_b +:+ ".webp") boot
      VUndefined "png"
      (buffer2webp linux_x64 sample_png ("/../" +:+ id_b +:+ ".webp")
                   "-q 80" VUndefined boot).1.
Proof.
  intros H.
  set (w2 := (buffer2webp linux_x64 sample_png ("/../" +:+ id_b +:+ ".webp")
                          "-q 80" VUndefined boot).1) in *.
  assert (H1 : temp_pair linux_x64 VUndefined ("/../" +:+ id_b +:+ ".webp")
                         boot
               = ((temp_pair linux_x64 VUndefined
                             ("/../" +:+ id_b +:+ ".webp") boot).1,
                  Ok ("/tmp/webp-converter-js/" +:+ id_b +:+ ".webp",
                      "/tmp/webp-converter-js/" +:+ id_a +:+ ".webp")))
    by (vm_compute; reflexivity).
  assert (H2 : temp_pair linux_x64 VUndefined "png" w2
               = ((temp_pair linux_x64 VUndefined "png" w2).1,
                  Ok ("/tmp/webp-converter-js/" +:+ id_b +:+ ".png",
                      "/tmp/webp-converter-js/" +:+ id_b +:+ ".webp")))
    by (vm_compute; reflexivity).
  assert (Hid : uuid_v4 linux_x64 (drawn boot) <> uuid_v4 linux_x64 (drawn w2))
    by (vm_compute; discriminate).
  destruct (H _ _ _ _ _ _ H1 H2 Hid) as (_ & Hio & _).
  now apply Hio.
Qed.

(** C4 (amended): on a platform whose [path] is the POSIX one (every
    platform but win32), every pipeline call derives both temp paths from
    the one identifier it drew, as [path.join(tempDir, id.tag)] and
    [path.join(tempDir, id.webp)], [tempDir] being the directory the
    resolver chose and created; for two calls whose identifiers are
    distinct canonical UUIDs and whose format tags hold no "/", the two
    pairs have no path in common. *)
Theorem temp_pairs_disjoint (h : host)
        (extra1 : jsval) (type1 : string) (w1 : world)
        (extra2 : jsval) (type2 : string) (w2 : world)
        (wa wb : world) (i1 o1 i2 o2 : string) :
  posix h = true ->
  temp_pair h extra1 type1 w1 = (wa, Ok (i1, o1)) ->
  temp_pair h extra2 type2 w2 = (wb, Ok (i2, o2)) ->
  Uuid.is_uuid (uuid_v4 h (drawn w1)) = true ->
  Uuid.is_uuid (uuid_v4 h (drawn w2)) = true ->
  uuid_v4 h (drawn w1) <> uuid_v4 h (drawn w2) ->
  JsString.mem "/" type1 = false ->
  JsString.mem "/" type2 = false ->
  (exists d1 d2,
      targetPath h extra1 = VStr d1
      /\ Fs.mkdirSync (fs w1) (cwd h) d1 = (fs wa, Ok tt)
      /\ targetPath h extra2 = VStr d2
      /\ Fs.mkdirSync (fs w2) (cwd h) d2 = (fs wb, Ok tt)
      /\ i1 = Path.join_paths [d1; uuid_v4 h (drawn w1) +:+ "." +:+ type1]
      /\ o1 = Path.join_paths [d1; uuid_v4 h (drawn w1) +:+ ".webp"]
      /\ i2 = Path.join_paths [d2; uuid_v4 h (drawn w2) +:+ "." +:+ type2]
      /\ o2 = Path.join_paths [d2; uuid_v4 h (drawn w2) +:+ ".webp"])
  /\ i1 <> i2 /\ i1 <> o2 /\ o1 <> i2 /\ o1 <> o2.
Proof.
  intros _ Hp1 Hp2 U1 U2 Hne T1 T2.
  apply temp_pair_ok in Hp1 as (d1 & Ht1 & -> & -> & Hm1 & _).
  apply temp_pair_ok in Hp2 as (d2 & Ht2 & -> & -> & Hm2 & _).
  split.
  { exists d1, d2. split; [exact Ht1|]. split; [exact Hm1|].
    split; [exact Ht2|]. split; [exact Hm2|]. now repeat split. }
  change (output_name ?id) with (input_name id "webp").
  assert (Hw : JsString.mem Path.sep "webp" = false) by reflexivity.
  repeat split; now apply temp_paths_differ.
Qed.

Lemma temp_pairs_disjoint_witness :
  let w2 := (buffer2webp linux_x64 sample_png "png" "-q 80" VUndefined boot).1 in
  let i1 := "/tmp/webp-converter-js/" +:+ id_a +:+ ".png" in
  let o1 := "/tmp/webp-converter-js/" +:+ id_a +:+ ".webp" in
  let i2 := "/srv/webp/" +:+ id_b +:+ ".jpg" in
  let o2 := "/srv/webp/" +:+ id_b +:+ ".webp" in
  temp_pair linux_x64 VUndefined "png" boot
  = ((temp_pair linux_x64 VUndefined "png" boot).1, Ok (i1, o1))
  /\ temp_pair linux_x64 (VStr "/srv/webp/") "jpg" w2
     = ((temp_pair linux_x64 (VStr "/srv/webp/") "jpg" w2).1, Ok (i2, o2))
  /\ i1 <> i2 /\ i1 <> o2 /\ o1 <> i2 /\ o1 <> o2.
Proof.
  cbv zeta.
  set (w2 := (buffer2webp linux_x64 sample_png "png" "-q 80" VUndefined
                          boot).1).
  assert (H1 : temp_pair linux_x64 VUndefined "png" boot
               = ((temp_pair linux_x64 VUndefined "png" boot).1,
                  Ok ("/tmp/webp-converter-js/" +:+ id_a +:+ ".png",
                      "/tmp/webp-converter-js/" +:+ id_a +:+ ".webp")))
    by (vm_compute; reflexivity).
  assert (H2 : temp_pair linux_x64 (VStr "/srv/webp/") "jpg" w2
               = ((temp_pair linux_x64 (VStr "/srv/webp/") "jpg" w2).1,
                  Ok ("/srv/webp/" +:+ id_b +:+ ".jpg",
                      "/srv/webp/" +:+ id_b +:+ ".webp")))
    by (vm_compute; reflexivity).
  assert (U1 : Uuid.is_uuid (uuid_v4 linux_x64 (drawn boot)) = true)
    by (vm_compute; reflexivity).
  assert (U2 : Uuid.is_uuid (uuid_v4 linux_x64 (drawn w2)) = true)
    by (vm_compute; reflexivity).
  assert (Hne : uuid_v4 linux_x64 (drawn boot) <> uuid_v4 linux_x64 (drawn w2))
    by (vm_compute; discriminate).
  split; [exact H1|]. split; [exact H2|].
  exact (proj2 (temp_pairs_disjoint linux_x64 _ _ _ _ _ _ _ _ _ _ _ _
                  eq_refl H1 H2 U1 U2 Hne eq_refl eq_refl)).
Defined.

(** * IV  More properties of the code *)

(** ** IV.1  What the cleanup and the write step do to the file tree *)

Section TreeEffects.
Import JsString Fs.

Implicit Types (t : tree) (l : loc) (cs : list string) (p : string).

(** [rm] changes the tree in one way only: it takes one regular file out. *)
Lemma rm_force_effect t cwd p :
  (rm_force t cwd p).1 = t
  \/ exists l d, node_at t l = Some (File d) /\ (rm_force t cwd p).1 = delete l t.
Proof.
  unfold rm_force. destruct (resolve t cwd p) as [e|[l [[d|]|]]] eqn:Hr.
  - left. now destruct e.
  - right. exists l, d. split; [now apply resolve_file in Hr | reflexivity].
  - now left.
  - now left.
Qed.

Lemma resolve_node t cwd p l n :
  resolve t cwd p = inr (l, n) -> node_at t l = n.
Proof.
  unfold resolve. destruct (is_empty p); [discriminate|].
  destruct (walk _ _ _) as [|x]; [discriminate|].
  destruct (node_at t x) as [[d|]|] eqn:Ex.
  - destruct (names_directory p); [discriminate|]. now intros [= <- <-].
  - now intros [= <- <-].
  - now intros [= <- <-].
Qed.

Lemma rm_force_keeps_directories t cwd p :
  (forall l, node_at t l = Some Dir -> node_at (rm_force t cwd p).1 l = Some Dir)
  /\ (forall l n, node_at (rm_force t cwd p).1 l = Some n -> node_at t l = Some n)
  /\ (forall q, is_directory t cwd q = true ->
                is_directory (rm_force t cwd p).1 cwd q = true).
Proof.
  destruct (rm_force_effect t cwd p) as [->|(l0 & d & H0 & ->)]; [auto|].
  pose proof (node_at_file_not_root _ _ _ H0) as Hne.
  split; [|split].
  - intros l Hl. rewrite (node_at_delete t l0 l Hne).
    destruct (decide (l0 = l)); [congruence | exact Hl].
  - intros l n. rewrite (node_at_delete t l0 l Hne).
    now destruct (decide (l0 = l)).
  - intros q. unfold is_directory.
    destruct (resolve t cwd q) as [e|[l [[d'|]|]]] eqn:Hq; try discriminate.
    intros _. rewrite (resolve_delete_found _ _ _ _ _ _ _ H0 Hq).
    apply resolve_node in Hq.
    destruct (decide (l0 = l)); [congruence | reflexivity].
Qed.

(** Putting a regular file where none or another one was changes no walk
    that succeeded. *)
Lemma walk_insert_file t l0 d :
  node_at t l0 <> Some Dir ->
  forall cs l x, walk t l cs = inr x ->
                 walk (<[l0 := File d]> t) l cs = inr x.
Proof.
  intros H0.
  assert (Hne : l0 <> []) by (intros ->; now apply H0).
  induction cs as [|c cs IH]; intros l x Hw; simpl in *; [exact Hw|].
  rewrite (node_at_insert t l0 (File d) l Hne).
  destruct (decide (l0 = l)) as [<-|Hl].
  - destruct (node_at t l0) as [[d'|]|]; [discriminate | contradiction
                                          | discriminate].
  - destruct (node_at t l) as [[d'|]|]; try discriminate. now apply IH.
Qed.

(** What was written is what is read. *)
Lemma writeFile_readFile t cwd p data t' :
  writeFile t cwd p data = (t', Ok tt) -> readFile t' cwd p = Ok data.
Proof.
  unfold writeFile, readFile.
  destruct (resolve t cwd p) as [e|[l n]] eqn:Hr; [discriminate|].
  assert (Hgen : names_directory p = false -> n <> Some Dir ->
                 resolve (<[l := File data]> t) cwd p
                 = inr (l, Some (File data))).
  { intros Hnd Hn. pose proof (resolve_node _ _ _ _ _ Hr) as Hl.
    assert (H0 : node_at t l <> Some Dir) by congruence.
    assert (Hne : l <> []) by (intros ->; now apply H0).
    unfold resolve in *. destruct (is_empty p); [discriminate|].
    destruct (walk t (start cwd p) (components p)) as [e|x] eqn:Hw;
      [discriminate|].
    assert (x = l) as ->.
    { destruct (node_at t x) as [[d'|]|]; [|congruence..].
      destruct (names_directory p); congruence. }
    rewrite (walk_insert_file t l data H0 _ _ _ Hw).
    rewrite (node_at_insert t l (File data) l Hne), decide_True by reflexivity.
    now rewrite Hnd. }
  destruct n as [[d'|]|].
  - intros [= <-].
    assert (Hnd : names_directory p = false).
    { unfold resolve in Hr. destruct (is_empty p); [discriminate|].
      destruct (walk _ _ _) as [|x]; [discriminate|].
      destruct (node_at t x) as [[d2|]|]; try discriminate.
      now destruct (names_directory p). }
    now rewrite Hgen.
  - discriminate.
  - destruct (names_directory p) eqn:Hnd; [discriminate|].
    intros [= <-]. now rewrite Hgen.
Qed.

End TreeEffects.

(** X2: the [finally] block only ever takes regular files away: every
    directory of the file tree, the temp directory among them, is still
    there after it, under every path that named it, and nothing is in the
    tree afterwards that was not there before. *)
Theorem cleanup_only_removes_files (h : host) (i o : string) (w : world) :
  let w' := (cleanup h i o w).1 in
  (forall l, Fs.node_at (fs w) l = Some Fs.Dir ->
             Fs.node_at (fs w') l = Some Fs.Dir)
  /\ (forall l n, Fs.node_at (fs w') l = Some n -> Fs.node_at (fs w) l = Some n)
  /\ (forall q, Fs.is_directory (fs w) (cwd h) q = true ->
                Fs.is_directory (fs w') (cwd h) q = true).
Proof.
  cbv zeta. rewrite cleanup_run.
  pose proof (rm_force_keeps_directories (fs w) (cwd h) i) as (A1 & B1 & C1).
  destruct (Fs.rm_force (fs w) (cwd h) i) as [t [[]|e]]; simpl in *;
    [|auto].
  pose proof (rm_force_keeps_directories t (cwd h) o) as (A2 & B2 & C2).
  destruct (Fs.rm_force t (cwd h) o) as [t' r]; simpl in *.
  split; [|split]; eauto.
Qed.

(** ** IV.2  The steps of the [try] block *)

Section TrySteps.
Variable h : host.

Lemma fs_writeFile_ok (p : string) (data : list byte) (w wa : world) :
  fs_writeFile h p data w = (wa, Ok tt) ->
  Fs.writeFile (fs w) (cwd h) p data = (fs wa, Ok tt)
  /\ trace wa = trace w ++ [EvWriteFile p data]
  /\ drawn wa = drawn w.
Proof.
  unfold fs_writeFile.
  destruct (Fs.writeFile (fs w) (cwd h) p data) as [t r].
  intros [= <- ->]. auto.
Qed.

(** The [try] block from the tool step on, once the input is written and
    the binary is known. *)
Lemma attempt_after_write (inputBuffer : list byte) (opt i o : string)
      (w0 wa : world) (segs : list string) :
  platformConfig !! platform_key h = Some segs ->
  fs_writeFile h i inputBuffer w0 = (wa, Ok tt) ->
  attempt h inputBuffer opt i o w0
  = match executeCommand h
            (Path.join_paths (dirname h :: ".." :: "bin" :: segs))
            (cwebp_args i o opt None) wa with
    | (wb, Err e) =>
        (log (EvConsoleError "WebP conversion failed:" e) wb, Err e)
    | (wb, Ok _) =>
        match Fs.readFile (fs wb) (cwd h) o with
        | Ok d => (log (EvReadFile o) wb, Ok d)
        | Err e =>
            (log (EvConsoleError "WebP conversion failed:" e)
                 (log (EvReadFile o) wb), Err e)
        end
    end.
Proof.
  intros Hk Hw. unfold attempt, try_catch, bind. rewrite Hw.
  unfold cwebp, bind, getCwebpPath. rewrite Hk. unfold ret at 1.
  destruct (executeCommand h _ _ wa) as [wb [[out err]|e]]; [|reflexivity].
  unfold fs_readFile, ret.
  destruct (Fs.readFile (fs wb) (cwd h) o); reflexivity.
Qed.

End TrySteps.

(** X1: a call that resolves has gone through all three steps and left
    nothing behind: the input was written, the tool exited with status
    zero, the bytes returned are the content of the output temp file as the
    tool left it, and neither temp path exists when the call returns. *)
Theorem resolved_call_is_complete (h : host) (inputBuffer : list byte)
        (imageType opt : string) (extra_path : jsval) (w w0 : world)
        (i o : string) (bytes : list byte) :
  temp_pair h extra_path imageType w = (w0, Ok (i, o)) ->
  (convertToWebpBuffer h inputBuffer imageType opt extra_path w).2 = Ok bytes ->
  let w' := (convertToWebpBuffer h inputBuffer imageType opt extra_path w).1 in
  on_disk h w' i = false /\ on_disk h w' o = false
  /\ exists wa wb stdout stderr,
       fs_writeFile h i inputBuffer w0 = (wa, Ok tt)
       /\ cwebp h i o opt None wa = (wb, Ok (stdout, stderr))
       /\ (exists file args status,
             (run h file args (fs wa)).2 = Exited status stdout stderr
             /\ status = 0%Z /\ fs wb = (run h file args (fs wa)).1)
       /\ Fs.readFile (fs wb) (cwd h) o = Ok bytes.
Proof.
  intros Hp. cbv zeta. rewrite convertToWebpBuffer_steps, Hp.
  unfold try_finally.
  destruct (attempt h inputBuffer opt i o w0) as [w1 r] eqn:Ha.
  rewrite cleanup_run.
  destruct (Fs.rm_force (fs w1) (cwd h) i) as [t [[]|e]] eqn:E1;
    [|discriminate].
  destruct (Fs.rm_force t (cwd h) o) as [t' [[]|e]] eqn:E2; [|discriminate].
  simpl. intros ->. unfold on_disk; simpl.
  split; [|split].
  - eapply rm_force_keeps_absent; [exact E2|].
    eapply rm_force_absent; exact E1.
  - eapply rm_force_absent; exact E2.
  - unfold attempt, try_catch, bind in Ha.
    destruct (fs_writeFile h i inputBuffer w0) as [wa [[]|e]]; [|discriminate].
    destruct (cwebp h i o opt None wa) as [wb [[out err]|e]] eqn:Hc;
      [|discriminate].
    exists wa, wb, out, err. split; [reflexivity|]. split; [exact Hc|].
    split.
    + unfold cwebp, bind, getCwebpPath in Hc.
      destruct (platformConfig !! platform_key h) as [segs|]; [|discriminate].
      unfold ret at 1 in Hc. rewrite executeCommand_run in Hc. cbv zeta in Hc.
      eexists _, _.
      destruct (spawn_arguments_ok _ _); [|discriminate].
      destruct ((run h _ _ (fs wa)).2) as [code|status so se|sig so se]
        eqn:Hrun;
        [discriminate| |destruct (overruns so se); discriminate].
      destruct (overruns so se); [discriminate|].
      destruct (Z.eqb_spec status 0) as [->|]; [|discriminate].
      exists 0%Z. injection Hc as <- <- <-.
      split; [exact Hrun|]. split; [reflexivity|].
      now destruct (JsString.is_empty se).
    + unfold fs_readFile, ret in Ha.
      destruct (Fs.readFile (fs wb) (cwd h) o); [|discriminate].
      now injection Ha as _ <-.
Qed.

Lemma resolved_call_is_complete_witness :
  let out := convertToWebpBuffer linux_x64 sample_png "png" "-q 80"
                                 VUndefined boot in
  out.2 = Ok (Buffer.of_text "RIFF" ++ sample_png)
  /\ on_disk linux_x64 out.1 ("/tmp/webp-converter-js/" +:+ id_a +:+ ".png")
     = false
  /\ on_disk linux_x64 out.1 ("/tmp/webp-converter-js/" +:+ id_a +:+ ".webp")
     = false.
Proof.
  cbv zeta.
  assert (Hp : temp_pair linux_x64 VUndefined "png" boot
               = ((temp_pair linux_x64 VUndefined "png" boot).1,
                  Ok ("/tmp/webp-converter-js/" +:+ id_a +:+ ".png",
                      "/tmp/webp-converter-js/" +:+ id_a +:+ ".webp")))
    by (vm_compute; reflexivity).
  assert (Hr : (convertToWebpBuffer linux_x64 sample_png "png" "-q 80"
                                    VUndefined boot).2
               = Ok (Buffer.of_text "RIFF" ++ sample_png))
    by (vm_compute; reflexivity).
  destruct (resolved_call_is_complete linux_x64 sample_png "png" "-q 80"
              VUndefined boot _ _ _ _ Hp Hr) as (Hi & Ho & _).
  split; [exact Hr|]. split; [exact Hi | exact Ho].
Defined.

(** X3: on a supported platform, once the input temp file is written,
    [execFile] is called exactly once, with the option tokens, the input path,
    "-o", the output path and "-quiet", on a file tree in which the input
    path holds exactly the bytes of the buffer; the tree the next step sees
    is the one the tool returned (the tree as the write left it, when
    [execFile] refuses the arguments and starts nothing). *)
Theorem tool_runs_once_on_written_input (h : host) (inputBuffer : list byte)
        (opt i o : string) (w0 wa : world) (segs : list string) :
  platformConfig !! platform_key h = Some segs ->
  fs_writeFile h i inputBuffer w0 = (wa, Ok tt) ->
  let bin := Path.join_paths (dirname h :: ".." :: "bin" :: segs) in
  let args := JsString.split_on " " opt ++ [i; "-o"; o; "-quiet"] in
  Fs.readFile (fs wa) (cwd h) i = Ok inputBuffer
  /\ List.filter is_exec (trace (attempt h inputBuffer opt i o w0).1)
     = List.filter is_exec (trace w0) ++ [EvExecFile bin args]
  /\ fs (attempt h inputBuffer opt i o w0).1
     = (if spawn_arguments_ok bin args then (run h bin args (fs wa)).1
        else fs wa).
Proof.
  intros Hk Hw. cbv zeta.
  destruct (fs_writeFile_ok h _ _ _ _ Hw) as (Hfs & Htr & _).
  split; [now apply (writeFile_readFile (fs w0))|].
  rewrite (attempt_after_write h _ _ _ _ _ _ _ Hk Hw), executeCommand_run.
  cbv zeta. change (cwebp_args i o opt None)
    with (JsString.split_on " " opt ++ [i; "-o"; o; "-quiet"]).
  child_cases h;
    try match goal with
        | |- context [Fs.readFile ?t ?c ?p] => destruct (Fs.readFile t c p)
        end;
    simpl; (split; [|reflexivity]);
    rewrite Htr, !List.filter_app; simpl;
    rewrite ?app_nil_r, <- ?app_assoc; reflexivity.
Qed.

Lemma tool_runs_once_witness :
  let w0 := (temp_pair linux_x64 VUndefined "png" boot).1 in
  let i := "/tmp/webp-converter-js/" +:+ id_a +:+ ".png" in
  let o := "/tmp/webp-converter-js/" +:+ id_a +:+ ".webp" in
  List.filter is_exec (trace (attempt linux_x64 sample_png "-q 80" i o w0).1)
  = [EvExecFile "/app/node_modules/img-webpify/bin/libwebp_linux/bin/cwebp"
                ["-q"; "80"; i; "-o"; o; "-quiet"]].
Proof.
  cbv zeta.
  exact (proj1 (proj2
    (tool_runs_once_on_written_input linux_x64 sample_png "-q 80"
       ("/tmp/webp-converter-js/" +:+ id_a +:+ ".png")
       ("/tmp/webp-converter-js/" +:+ id_a +:+ ".webp")
       (temp_pair linux_x64 VUndefined "png" boot).1
       (fs_writeFile linux_x64
          ("/tmp/webp-converter-js/" +:+ id_a +:+ ".png") sample_png
          (temp_pair linux_x64 VUndefined "png" boot).1).1
       ["libwebp_linux"; "bin"; "cwebp"] eq_refl eq_refl))).
Defined.

(** ** IV.3  Identifiers *)

Section Drawn.
Variable h : host.

Lemma keeps_ret {A} (a : A) : keeps_drawn (ret a).
Proof. now intros w. Qed.

Lemma keeps_throw {A} (e : error) : keeps_drawn (@throw A e).
Proof. now intros w. Qed.

Lemma keeps_bind {A B} (m : M A) (k : A -> M B) :
  keeps_drawn m -> (forall a, keeps_drawn (k a)) -> keeps_drawn (bind m k).
Proof.
  intros Hm Hk w. unfold bind. specialize (Hm w).
  destruct (m w) as [w1 [a|e]]; simpl in *; [|exact Hm].
  now rewrite (Hk a w1).
Qed.

Lemma keeps_try_catch {A} (m : M A) (k : error -> M A) :
  keeps_drawn m -> (forall e, keeps_drawn (k e)) -> keeps_drawn (try_catch m k).
Proof.
  intros Hm Hk w. unfold try_catch. specialize (Hm w).
  destruct (m w) as [w1 [a|e]]; simpl in *; [exact Hm|].
  now rewrite (Hk e w1).
Qed.

Lemma keeps_try_finally {A} (m : M A) (c : M unit) :
  keeps_drawn m -> keeps_drawn c -> keeps_drawn (try_finally m c).
Proof.
  intros Hm Hc w. unfold try_finally. specialize (Hm w).
  destruct (m w) as [w1 r]; simpl in *. specialize (Hc w1).
  destruct (c w1) as [w2 [u|e]]; simpl in *; congruence.
Qed.

Lemma keeps_as_path (v : jsval) : keeps_drawn (as_path v).
Proof. destruct v; first [apply keeps_ret | apply keeps_throw]. Qed.

Lemma keeps_mkdirSync (v : jsval) : keeps_drawn (fs_mkdirSync h v).
Proof.
  unfold fs_mkdirSync. apply keeps_bind; [apply keeps_as_path|].
  intros p w. now destruct (Fs.mkdirSync (fs w) (cwd h) p).
Qed.

Lemma keeps_writeFile (p : string) (data : list byte) :
  keeps_drawn (fs_writeFile h p data).
Proof.
  intros w. unfold fs_writeFile.
  now destruct (Fs.writeFile (fs w) (cwd h) p data).
Qed.

Lemma keeps_readFile (p : string) : keeps_drawn (fs_readFile h p).
Proof. now intros w. Qed.

Lemma keeps_rm (p : string) : keeps_drawn (fs_rm h p).
Proof.
  intros w. unfold fs_rm. now destruct (Fs.rm_force (fs w) (cwd h) p).
Qed.

Lemma keeps_console_error (text : string) (e : error) :
  keeps_drawn (console_error text e).
Proof. now intros w. Qed.

Lemma keeps_console_warn (text : string) : keeps_drawn (console_warn text).
Proof. now intros w. Qed.

Lemma keeps_execFile (file : string) (args : list string) :
  keeps_drawn (execFile h file args).
Proof.
  intros w. unfold execFile. cbv zeta.
  destruct (spawn_arguments_ok file args); [|reflexivity].
  destruct (run h file args (fs w)) as [t [code|status out err|sig out err]];
    [reflexivity| |now destruct (overruns out err)].
  destruct (overruns out err); [reflexivity|]. now destruct (status =? 0)%Z.
Qed.

Lemma keeps_executeCommand (binaryPath : string) (args : list string) :
  keeps_drawn (executeCommand h binaryPath args).
Proof.
  unfold executeCommand. apply keeps_try_catch.
  - apply keeps_bind; [apply keeps_execFile|]. intros [out err].
    apply keeps_bind; [|intros ?; apply keeps_ret].
    destruct (negb (JsString.is_empty err));
      [apply keeps_console_warn | apply keeps_ret].
  - intros e. apply keeps_bind; [apply keeps_console_error|].
    intros ?. apply keeps_throw.
Qed.

Lemma keeps_cwebp (i o opt : string) (logging : option string) :
  keeps_drawn (cwebp h i o opt logging).
Proof.
  unfold cwebp, getCwebpPath. apply keeps_bind.
  - destruct (platformConfig !! platform_key h);
      [apply keeps_ret | apply keeps_throw].
  - intros bin. apply keeps_executeCommand.
Qed.

Lemma keeps_attempt (inputBuffer : list byte) (opt i o : string) :
  keeps_drawn (attempt h inputBuffer opt i o).
Proof.
  unfold attempt. apply keeps_try_catch.
  - apply keeps_bind; [apply keeps_writeFile|]. intros _.
    apply keeps_bind; [apply keeps_cwebp|]. intros _.
    apply keeps_bind; [apply keeps_readFile|]. intros b. apply keeps_ret.
  - intros e. apply keeps_bind; [apply keeps_console_error|].
    intros ?. apply keeps_throw.
Qed.

Lemma keeps_cleanup (i o : string) : keeps_drawn (cleanup h i o).
Proof.
  unfold cleanup. apply keeps_bind; [apply keeps_rm|].
  intros ?. apply keeps_rm.
Qed.

Lemma keeps_getTempPath (customPath : jsval) :
  keeps_drawn (getTempPath h customPath).
Proof.
  unfold getTempPath. apply keeps_bind; [|intros ?; apply keeps_ret].
  apply keeps_try_catch; [apply keeps_mkdirSync|].
  intros e. apply keeps_bind; [apply keeps_console_error|].
  intros ?. apply keeps_throw.
Qed.

Lemma temp_pair_draws_one (extra_path : jsval) (imageType : string)
      (w : world) :
  drawn (temp_pair h extra_path imageType w).1 = S (drawn w).
Proof.
  unfold temp_pair, bind at 1. unfold uuid at 1.
  set (w1 := {| fs := fs w; drawn := S (drawn w); trace := _ |}).
  set (rest := bind _ _).
  assert (Hrest : keeps_drawn rest).
  { unfold rest. apply keeps_bind; [apply keeps_getTempPath|]. intros v.
    unfold path_join.
    apply keeps_bind;
      [apply keeps_bind; [apply keeps_as_path | intros ?; apply keeps_ret]|].
    intros ?.
    apply keeps_bind;
      [apply keeps_bind; [apply keeps_as_path | intros ?; apply keeps_ret]|].
    intros ?. apply keeps_ret. }
  now rewrite (Hrest w1).
Qed.

Lemma convert_draws_one (inputBuffer : list byte) (imageType opt : string)
      (extra_path : jsval) (w : world) :
  drawn (convertToWebpBuffer h inputBuffer imageType opt extra_path w).1
  = S (drawn w).
Proof.
  rewrite convertToWebpBuffer_steps.
  pose proof (temp_pair_draws_one extra_path imageType w) as Hd.
  destruct (temp_pair h extra_path imageType w) as [w0 [[i o]|e]];
    simpl in *; [|exact Hd].
  now rewrite (keeps_try_finally _ _ (keeps_attempt inputBuffer opt i o)
                 (keeps_cleanup i o) w0).
Qed.

End Drawn.

(** X4: every buffer or base64 conversion call draws exactly one
    identifier, whether it resolves or rejects and wherever it rejects
    (directory resolution included); the path-based [cwebp] draws none. *)
Theorem each_call_draws_one_identifier (h : host) (buffer : list byte)
        (base64str image_type opt input_image output_image : string)
        (extra_path : jsval) (logging : option string) (w : world) :
  drawn (buffer2webp h buffer image_type opt extra_path w).1 = S (drawn w)
  /\ drawn (base64str2webp h base64str image_type opt extra_path w).1
     = S (drawn w)
  /\ drawn (cwebp h input_image output_image opt logging w).1 = drawn w
  /\ List.filter (fun ev => match ev with EvUuid _ => true | _ => false end)
       (trace (buffer2webp h buffer image_type opt extra_path w).1)
     = List.filter (fun ev => match ev with EvUuid _ => true | _ => false end)
         (trace w) ++ [EvUuid (uuid_v4 h (drawn w))].
Proof.
  unfold buffer2webp. split; [apply convert_draws_one|].
  split; [rewrite base64str2webp_run; apply convert_draws_one|].
  split; [apply keeps_cwebp|].
  set (is_id := fun ev => match ev with EvUuid _ => true | _ => false end).
  set (not_id := fun ev => negb (is_id ev)).
  assert (Hnone : forall evs, forallb not_id evs = true ->
                              List.filter is_id evs = []).
  { induction evs as [|ev evs IH]; [reflexivity|]. simpl.
    intros Hall. apply andb_prop in Hall as [Hev Hall].
    unfold not_id in Hev. apply negb_true_iff in Hev. rewrite Hev. auto. }
  unfold convertToWebpBuffer, bind at 1. unfold uuid at 1.
  set (w1 := {| fs := fs w; drawn := S (drawn w); trace := _ |}).
  set (rest := bind _ _).
  assert (Hrest : emits not_id rest).
  { unfold rest, getTempPath, path_join, as_path.
    apply emits_bind.
    { apply emits_bind; [|intros ?; apply emits_ret].
      apply emits_try_catch;
        [apply emits_mkdirSync; reflexivity|].
      intros e. apply emits_bind;
        [apply emits_console_error; reflexivity | intros ?; apply emits_throw]. }
    intros v. apply emits_bind.
    { apply emits_bind; [|intros ?; apply emits_ret].
      destruct v; first [apply emits_ret | apply emits_throw]. }
    intros i. apply emits_bind.
    { apply emits_bind; [|intros ?; apply emits_ret].
      destruct v; first [apply emits_ret | apply emits_throw]. }
    intros o. apply emits_try_finally.
    - unfold attempt. apply emits_try_catch.
      + apply emits_bind; [apply emits_writeFile; reflexivity|]. intros _.
        apply emits_bind.
        { unfold cwebp, getCwebpPath. apply emits_bind.
          - destruct (platformConfig !! platform_key h);
              [apply emits_ret | apply emits_throw].
          - intros bin. unfold executeCommand. apply emits_try_catch.
            + apply emits_bind; [apply emits_execFile; reflexivity|].
              intros [out err].
              apply emits_bind; [|intros ?; apply emits_ret].
              destruct (negb (JsString.is_empty err));
                [apply emits_console_warn; reflexivity | apply emits_ret].
            + intros e. apply emits_bind;
                [apply emits_console_error; reflexivity
                | intros ?; apply emits_throw]. }
        intros _. apply emits_bind; [apply emits_readFile; reflexivity|].
        intros b. apply emits_ret.
      + intros e. apply emits_bind;
          [apply emits_console_error; reflexivity | intros ?; apply emits_throw].
    - apply emits_cleanup. reflexivity. }
  destruct (Hrest w1) as (evs & -> & Hall).
  unfold w1; simpl. rewrite !List.filter_app, (Hnone _ Hall). simpl.
  now rewrite app_nil_r.
Qed.

(** X5: on a platform whose [path] is the POSIX one, two calls made one
    after the other use different draws of the identifier source; when
    these two draws are distinct canonical UUIDs and both format tags are
    free of "/", the temp paths of the second call are none of the temp
    paths of the first. *)
Theorem successive_calls_have_disjoint_pairs (h : host)
        (buffer1 : list byte) (type1 opt1 : string) (extra1 : jsval)
        (type2 : string) (extra2 : jsval) (w wa wb : world)
        (i1 o1 i2 o2 : string) :
  posix h = true ->
  temp_pair h extra1 type1 w = (wa, Ok (i1, o1)) ->
  temp_pair h extra2 type2 (buffer2webp h buffer1 type1 opt1 extra1 w).1
  = (wb, Ok (i2, o2)) ->
  Uuid.is_uuid (uuid_v4 h (drawn w)) = true ->
  Uuid.is_uuid (uuid_v4 h (S (drawn w))) = true ->
  uuid_v4 h (drawn w) <> uuid_v4 h (S (drawn w)) ->
  JsString.mem "/" type1 = false ->
  JsString.mem "/" type2 = false ->
  In (EvUuid (uuid_v4 h (S (drawn w)))) (trace wb)
  /\ i1 <> i2 /\ i1 <> o2 /\ o1 <> i2 /\ o1 <> o2.
Proof.
  intros _ Hp1 Hp2 U1 U2 Hne T1 T2.
  apply temp_pair_ok in Hp1 as (d1 & _ & -> & -> & _).
  apply temp_pair_ok in Hp2 as (d2 & _ & -> & -> & _ & Htr).
  unfold buffer2webp in *. rewrite convert_draws_one in *.
  split; [rewrite Htr; apply in_or_app; right; now left|].
  change (output_name ?id) with (input_name id "webp").
  assert (Hw : JsString.mem Path.sep "webp" = false) by reflexivity.
  repeat split; now apply temp_paths_differ.
Qed.

Lemma successive_calls_witness :
  let w2 := (buffer2webp linux_x64 sample_png "png" "-q 80" VUndefined boot).1 in
  temp_pair linux_x64 VUndefined "jpg" w2
  = ((temp_pair linux_x64 VUndefined "jpg" w2).1,
     Ok ("/tmp/webp-converter-js/" +:+ id_b +:+ ".jpg",
         "/tmp/webp-converter-js/" +:+ id_b +:+ ".webp"))
  /\ "/tmp/webp-converter-js/" +:+ id_a +:+ ".webp"
     <> "/tmp/webp-converter-js/" +:+ id_b +:+ ".webp".
Proof.
  cbv zeta.
  assert (H1 : temp_pair linux_x64 VUndefined "png" boot
               = ((temp_pair linux_x64 VUndefined "png" boot).1,
                  Ok ("/tmp/webp-converter-js/" +:+ id_a +:+ ".png",
                      "/tmp/webp-converter-js/" +:+ id_a +:+ ".webp")))
    by (vm_compute; reflexivity).
  assert (H2 : temp_pair linux_x64 VUndefined "jpg"
                 (buffer2webp linux_x64 sample_png "png" "-q 80" VUndefined
                              boot).1
               = ((temp_pair linux_x64 VUndefined "jpg"
                     (buffer2webp linux_x64 sample_png "png" "-q 80"
                                  VUndefined boot).1).1,
                  Ok ("/tmp/webp-converter-js/" +:+ id_b +:+ ".jpg",
                      "/tmp/webp-converter-js/" +:+ id_b +:+ ".webp")))
    by (vm_compute; reflexivity).
  assert (Hne : uuid_v4 linux_x64 (drawn boot)
                <> uuid_v4 linux_x64 (S (drawn boot)))
    by (vm_compute; discriminate).
  split; [exact H2|].
  destruct (successive_calls_have_disjoint_pairs linux_x64 sample_png "png"
              "-q 80" VUndefined "jpg" VUndefined boot _ _ _ _ _ _
              eq_refl H1 H2 eq_refl eq_refl Hne eq_refl eq_refl)
    as (_ & _ & _ & _ & Hoo).
  exact Hoo.
Defined.

(** ** IV.4  The tool invoker and the path-based functions *)

(** X6: [executeCommand] is [execFile] plus console output: it resolves
    or rejects with exactly what [execFile] resolves or rejects with, on
    the same file tree, and adds one console line when [execFile] rejects
    (the error) or resolves with a non-empty standard error text (a
    warning), none otherwise. *)
Theorem executeCommand_is_execFile_with_logging (h : host)
        (binaryPath : string) (args : list string) (w : world) :
  let e := execFile h binaryPath args w in
  let c := executeCommand h binaryPath args w in
  c.2 = e.2 /\ fs c.1 = fs e.1
  /\ trace c.1
     = trace e.1
       ++ match e.2 with
          | Err err =>
              [EvConsoleError
                 ("[webp-lib error]: Failed to execute " +:+ binaryPath) err]
          | Ok (_, stderr) =>
              if JsString.is_empty stderr then []
              else [EvConsoleWarn ("[webp-lib stderr]: " +:+ stderr)]
          end.
Proof.
  cbv zeta. rewrite executeCommand_run. unfold execFile. cbv zeta.
  destruct (spawn_arguments_ok binaryPath args); simpl; [|auto].
  destruct (run h binaryPath args (fs w)) as [t [code|status out err|sig out err]];
    simpl; [auto| |destruct (overruns out err); simpl; auto].
  destruct (overruns out err); simpl; [auto|].
  destruct (status =? 0)%Z; simpl; [|auto].
  destruct (JsString.is_empty err); simpl; rewrite ?app_nil_r; auto.
Qed.

Section PathBased.
Variable h : host.

Lemma executeCommand_one_process (binaryPath : string) (args : list string) :
  one_process_at_most (executeCommand h binaryPath args).
Proof.
  intros w. rewrite executeCommand_run. cbv zeta.
  child_cases h;
    simpl; rewrite <- ?app_assoc; eexists; (split; [reflexivity|]);
    split; simpl; auto.
Qed.

Lemma located_one_process (locator : M string) (args : list string) :
  (forall w, (locator w).1 = w) ->
  one_process_at_most (bind locator (fun bin => executeCommand h bin args)).
Proof.
  intros Hpure w. unfold bind. specialize (Hpure w).
  destruct (locator w) as [w1 [bin|e]]; simpl in Hpure; subst w1.
  - apply executeCommand_one_process.
  - exists []. simpl. rewrite app_nil_r. auto.
Qed.

Lemma getCwebpPath_pure (w : world) : (getCwebpPath h w).1 = w.
Proof.
  unfold getCwebpPath. now destruct (platformConfig !! platform_key h).
Qed.

Lemma getWebpmuxPath_pure (w : world) : (getWebpmuxPath h w).1 = w.
Proof.
  unfold getWebpmuxPath.
  now destruct (webpmux_platformConfig !! platform_key h).
Qed.

End PathBased.

(** X7: the path-based functions whose locator is among the sources
    ([cwebp] and the five [webpmux_*] functions) start at most one child
    process, write to the console at most, and make no call into [fs] of
    their own: no temp directory, no temp file, no removal, no identifier;
    with locators that leave the world alone the same holds of [dwebp] and
    [gwebp]. *)
Theorem path_based_functions_manage_no_files (h : host)
        (dewebp gifwebp : M string)
        (input_image output_image opt metadata_path metadata_type loop
         bgcolor : string) (input_frames : list frame) (frame_number : jsval)
        (logging : option string) :
  one_process_at_most (cwebp h input_image output_image opt logging)
  /\ one_process_at_most
       (webpmux_add h input_image output_image metadata_path metadata_type
                    logging)
  /\ one_process_at_most
       (webpmux_extract h input_image output_image metadata_type logging)
  /\ one_process_at_most
       (webpmux_strip h input_image output_image metadata_type logging)
  /\ one_process_at_most
       (webpmux_animate h input_frames output_image loop bgcolor logging)
  /\ one_process_at_most
       (webpmux_getframe h input_image output_image frame_number logging)
  /\ ((forall w, (dewebp w).1 = w) ->
      one_process_at_most (dwebp h dewebp input_image output_image opt logging))
  /\ ((forall w, (gifwebp w).1 = w) ->
      one_process_at_most (gwebp h gifwebp input_image output_image opt logging)).
Proof.
  split; [apply located_one_process, getCwebpPath_pure|].
  do 5 (split; [apply located_one_process, getWebpmuxPath_pure|]).
  split; intros Hp; now apply located_one_process.
Qed.

(** X8: when the tool fails after the input temp file was written, the
    failure is written to the console twice, by [executeCommand] and by
    the [catch] of the pipeline, each time with the error the call then
    rejects with, and the output temp file is not read. *)
Theorem tool_failure_is_logged_twice (h : host) (inputBuffer : list byte)
        (opt i o : string) (w0 wa : world) (segs : list string) :
  platformConfig !! platform_key h = Some segs ->
  fs_writeFile h i inputBuffer w0 = (wa, Ok tt) ->
  let bin := Path.join_paths (dirname h :: ".." :: "bin" :: segs) in
  let args := cwebp_args i o opt None in
  forall e, (execFile h bin args wa).2 = Err e ->
    (attempt h inputBuffer opt i o w0).2 = Err e
    /\ trace (attempt h inputBuffer opt i o w0).1
       = trace w0
         ++ [EvWriteFile i inputBuffer;
             EvExecFile bin args;
             EvConsoleError ("[webp-lib error]: Failed to execute " +:+ bin) e;
             EvConsoleError "WebP conversion failed:" e].
Proof.
  intros Hk Hw. cbv zeta. intros e He.
  destruct (fs_writeFile_ok h _ _ _ _ Hw) as (_ & Htr & _).
  rewrite (attempt_after_write h _ _ _ _ _ _ _ Hk Hw), executeCommand_run.
  unfold execFile in He. cbv zeta in *.
  destruct (spawn_arguments_ok _ _); simpl in *.
  2:{ injection He as <-. split; [reflexivity|].
      now rewrite Htr, <- !app_assoc. }
  destruct (run h _ _ (fs wa)) as [t [code|status out err|sig out err]];
    simpl in *;
    try (destruct (overruns out err); simpl in * );
    try (destruct (status =? 0)%Z; [discriminate|]; simpl in * );
    injection He as <-; (split; [reflexivity|]);
    now rewrite Htr, <- !app_assoc.
Qed.

Lemma tool_failure_witness :
  let w0 := (temp_pair linux_x64_strict VUndefined "png" boot).1 in
  let i := "/tmp/webp-converter-js/" +:+ id_a +:+ ".png" in
  let o := "/tmp/webp-converter-js/" +:+ id_a +:+ ".webp" in
  (attempt linux_x64_strict sample_png "-bogus" i o w0).2
  = Err (ChildError 1 "" "Unknown option '-bogus'").
Proof.
  cbv zeta.
  exact (proj1
    (tool_failure_is_logged_twice linux_x64_strict sample_png "-bogus"
       ("/tmp/webp-converter-js/" +:+ id_a +:+ ".png")
       ("/tmp/webp-converter-js/" +:+ id_a +:+ ".webp")
       (temp_pair linux_x64_strict VUndefined "png" boot).1
       (fs_writeFile linux_x64_strict
          ("/tmp/webp-converter-js/" +:+ id_a +:+ ".png") sample_png
          (temp_pair linux_x64_strict VUndefined "png" boot).1).1
       ["libwebp_linux"; "bin"; "cwebp"] eq_refl eq_refl
       (ChildError 1 "" "Unknown option '-bogus'") eq_refl)).
Defined.

(** ** IV.5  Base64 there and back *)

Section Base64Facts.
Import Buffer.

Lemma all_below_spec (k : nat) (P : N -> bool) :
  all_below k P = true -> forall n, (n < N.of_nat k)%N -> P n = true.
Proof.
  unfold all_below, below. intros Hall n Hn.
  rewrite forallb_forall in Hall. apply Hall.
  apply in_map_iff. exists (N.to_nat n). split; [apply N2Nat.id|].
  apply in_seq. lia.
Qed.

Lemma N_of_byte_lt (x : byte) : (N_of_byte x < 256)%N.
Proof. unfold N_of_byte. apply N_ascii_bounded. Qed.

Lemma byte_of_N_of_byte (x : byte) : byte_of_N (N_of_byte x) = x.
Proof.
  unfold byte_of_N, N_of_byte.
  now rewrite ascii_N_embedding, byte_of_ascii_of_byte.
Qed.

Lemma land_63_lt (n : N) : (N.land n 63 < 64)%N.
Proof.
  change 63%N with (N.ones 6). rewrite N.land_ones.
  now apply N.mod_lt.
Qed.

Lemma land_3_lt (n : N) : (N.land n 3 < 4)%N.
Proof.
  change 3%N with (N.ones 2). rewrite N.land_ones.
  now apply N.mod_lt.
Qed.

Lemma land_15_lt (n : N) : (N.land n 15 < 16)%N.
Proof.
  change 15%N with (N.ones 4). rewrite N.land_ones.
  now apply N.mod_lt.
Qed.

Lemma shiftr_6_lt (n : N) : (n < 256)%N -> (N.shiftr n 6 < 4)%N.
Proof.
  intros Hn. rewrite N.shiftr_div_pow2.
  apply N.Div0.div_lt_upper_bound. exact Hn.
Qed.

(** Every digit of the alphabet is read back as the six bits it stands
    for, and none is the padding character. *)
Lemma digit_read_back (n : N) :
  Ascii.eqb (digit n) "=" = false
  /\ unbase64 (digit n) = Some (N.land n 63).
Proof.
  assert (Hd : digit n = digit (N.land n 63)).
  { unfold digit. now rewrite <- N.land_assoc, N.land_diag. }
  rewrite Hd. generalize (land_63_lt n). generalize (N.land n 63).
  intros v Hv.
  assert (Hall : all_below 64
            (fun v => negb (Ascii.eqb (digit v) "=")
                      && match unbase64 (digit v) with
                         | Some u => N.eqb u v
                         | None => false
                         end) = true) by (vm_compute; reflexivity).
  pose proof (all_below_spec 64 _ Hall v Hv) as H. simpl in H.
  apply andb_prop in H as [H1 H2]. apply negb_true_iff in H1.
  split; [exact H1|].
  destruct (unbase64 (digit v)) as [u|]; [|discriminate].
  now apply N.eqb_eq in H2 as ->.
Qed.

Lemma sextets_digit (n : N) (s : string) :
  sextets (String (digit n) s) = N.land n 63 :: sextets s.
Proof.
  destruct (digit_read_back n) as [H1 H2]. simpl. now rewrite H1, H2.
Qed.

(** The three bytes of a group come back from its four digits. *)
Lemma first_byte_back (a b : N) :
  (a < 256)%N -> (b < 256)%N ->
  N.lor (N.shiftl (N.land (N.shiftr a 2) 63) 2)
        (N.shiftr (N.land (N.lor (N.shiftl (N.land a 3) 4) (N.shiftr b 4)) 63) 4)
  = a.
Proof.
  intros Ha Hb.
  assert (Hall : all_below 256 (fun a => all_below 256 (fun b =>
            N.eqb
              (N.lor (N.shiftl (N.land (N.shiftr a 2) 63) 2)
                 (N.shiftr
                    (N.land (N.lor (N.shiftl (N.land a 3) 4) (N.shiftr b 4))
                            63) 4)) a)) = true) by (vm_compute; reflexivity).
  pose proof (all_below_spec 256 _ Hall a Ha) as H1. simpl in H1.
  pose proof (all_below_spec 256 _ H1 b Hb) as H2. simpl in H2.
  now apply N.eqb_eq.
Qed.

Lemma second_byte_back (x b y : N) :
  (x < 4)%N -> (b < 256)%N -> (y < 4)%N ->
  N.lor (N.shiftl
           (N.land (N.land (N.lor (N.shiftl x 4) (N.shiftr b 4)) 63) 15) 4)
        (N.shiftr (N.land (N.lor (N.shiftl (N.land b 15) 2) y) 63) 2)
  = b.
Proof.
  intros Hx Hb Hy.
  assert (Hall : all_below 4 (fun x => all_below 256 (fun b =>
            all_below 4 (fun y =>
            N.eqb
              (N.lor (N.shiftl
                        (N.land (N.land (N.lor (N.shiftl x 4) (N.shiftr b 4))
                                        63) 15) 4)
                     (N.shiftr
                        (N.land (N.lor (N.shiftl (N.land b 15) 2) y) 63) 2))
              b))) = true) by (vm_compute; reflexivity).
  pose proof (all_below_spec 4 _ Hall x Hx) as H1. simpl in H1.
  pose proof (all_below_spec 256 _ H1 b Hb) as H2. simpl in H2.
  pose proof (all_below_spec 4 _ H2 y Hy) as H3. simpl in H3.
  now apply N.eqb_eq.
Qed.

Lemma third_byte_back (u c : N) :
  (u < 16)%N -> (c < 256)%N ->
  N.lor (N.shiftl
           (N.land (N.land (N.lor (N.shiftl u 2) (N.shiftr c 6)) 63) 3) 6)
        (N.land c 63)
  = c.
Proof.
  intros Hu Hc.
  assert (Hall : all_below 16 (fun u => all_below 256 (fun c =>
            N.eqb
              (N.lor (N.shiftl
                        (N.land (N.land (N.lor (N.shiftl u 2) (N.shiftr c 6))
                                        63) 3) 6)
                     (N.land c 63)) c)) = true) by (vm_compute; reflexivity).
  pose proof (all_below_spec 16 _ Hall u Hu) as H1. simpl in H1.
  pose proof (all_below_spec 256 _ H1 c Hc) as H2. simpl in H2.
  now apply N.eqb_eq.
Qed.

Lemma byte_back (e : N) (x : byte) : e = N_of_byte x -> byte_of_N e = x.
Proof. intros ->. apply byte_of_N_of_byte. Qed.

Lemma base64_round_trip_upto (n : nat) :
  forall l : list byte, length l <= n -> from_base64 (to_base64 l) = l.
Proof.
  unfold from_base64.
  induction n as [n IH] using lt_wf_ind.
  intros [|x [|y [|z rest]]] Hlen.
  - reflexivity.
  - (* one byte, two digits, two paddings *)
    cbn [to_base64]. rewrite !sextets_digit. cbn [sextets Ascii.eqb].
    simpl bytes_of_sextets. f_equal. apply byte_back.
    pose proof (first_byte_back (N_of_byte x) 0 (N_of_byte_lt x)) as H.
    simpl N.shiftr in H. rewrite N.lor_0_r in H. now apply H.
  - (* two bytes, three digits, one padding *)
    cbn [to_base64]. rewrite !sextets_digit. cbn [sextets Ascii.eqb].
    simpl bytes_of_sextets. f_equal; [|f_equal]; apply byte_back.
    + apply first_byte_back; apply N_of_byte_lt.
    + pose proof (second_byte_back (N.land (N_of_byte x) 3) (N_of_byte y) 0
                    (land_3_lt _) (N_of_byte_lt y)) as H.
      rewrite N.lor_0_r in H. now apply H.
  - (* a whole group *)
    cbn [to_base64]. rewrite !sextets_digit.
    cbn [bytes_of_sextets]. f_equal; [|f_equal; [|f_equal]].
    + apply byte_back. apply first_byte_back; apply N_of_byte_lt.
    + apply byte_back. apply second_byte_back;
        [apply land_3_lt | apply N_of_byte_lt
         | apply shiftr_6_lt, N_of_byte_lt].
    + apply byte_back.
      apply third_byte_back; [apply land_15_lt | apply N_of_byte_lt].
    + apply (IH (length rest)); simpl in *; lia.
Qed.

Lemma base64_round_trip (l : list byte) : from_base64 (to_base64 l) = l.
Proof. now apply (base64_round_trip_upto (length l)). Qed.

End Base64Facts.

Section Base64Output.
Import Buffer.

Lemma digit_standard (n : N) : standard_char (digit n) = true.
Proof.
  assert (Hd : digit n = digit (N.land n 63)).
  { unfold digit. now rewrite <- N.land_assoc, N.land_diag. }
  rewrite Hd.
  assert (Hall : all_below 64 (fun v => standard_char (digit v)) = true)
    by (vm_compute; reflexivity).
  exact (all_below_spec 64 _ Hall _ (land_63_lt n)).
Qed.

Lemma to_base64_well_formed_upto (n : nat) :
  forall l : list byte, length l <= n -> well_formed_groups (to_base64 l) = true.
Proof.
  induction n as [n IH] using lt_wf_ind.
  intros [|x [|y [|z rest]]] Hlen.
  - reflexivity.
  - cbn [to_base64 well_formed_groups JsString.is_empty].
    rewrite !digit_standard. reflexivity.
  - cbn [to_base64 well_formed_groups JsString.is_empty].
    rewrite !digit_standard. reflexivity.
  - cbn [to_base64 well_formed_groups].
    rewrite !digit_standard, (IH (length rest)) by (simpl in *; lia).
    now destruct (JsString.is_empty (to_base64 rest)).
Qed.

End Base64Output.

(** X9: the base64 entry point and the buffer entry point agree: called on
    the base64 text of a buffer, [base64str2webp] runs exactly as
    [buffer2webp] on that buffer (same world afterwards, same error, the
    bytes encoded); decoding the text it resolves with gives the bytes
    [buffer2webp] resolves with, and that text is always well-formed
    base64. *)
Theorem base64_adapter_agrees_with_buffer_api (h : host) (buffer : list byte)
        (image_type opt : string) (extra_path : jsval) (w : world) :
  let s := base64str2webp h (Buffer.to_base64 buffer) image_type opt
                          extra_path w in
  let r := buffer2webp h buffer image_type opt extra_path w in
  s.1 = r.1
  /\ s.2 = map_result Buffer.to_base64 r.2
  /\ map_result Buffer.from_base64 s.2 = r.2
  /\ (forall text, s.2 = Ok text -> Buffer.well_formed_groups text = true).
Proof.
  cbv zeta. rewrite base64str2webp_run, base64_round_trip.
  unfold buffer2webp. simpl fst; simpl snd.
  destruct (convertToWebpBuffer h buffer image_type opt extra_path w).2
    as [b|e]; simpl.
  - rewrite base64_round_trip. repeat split.
    intros text [= <-].
    now apply (to_base64_well_formed_upto (length b)).
  - repeat split. discriminate.
Qed.

(** ** IV.6  The binaries *)

Section Binaries.
Import JsString Path.

(** The two tables have the same four keys. *)
Lemma config_cases (k : string) :
  (platformConfig !! k = None /\ webpmux_platformConfig !! k = None
   /\ ~ In k ["darwin-x64"; "darwin-arm64"; "linux-x64"; "win32-x64"])
  \/ (In k ["darwin-x64"; "darwin-arm64"; "linux-x64"; "win32-x64"]
      /\ exists lib tool mux,
           platformConfig !! k = Some [lib; "bin"; tool]
           /\ webpmux_platformConfig !! k = Some [lib; "bin"; mux]
           /\ plain_segment lib = true /\ plain_segment tool = true
           /\ plain_segment mux = true).
Proof.
  unfold platformConfig, webpmux_platformConfig. cbn [list_to_map foldr].
  destruct (decide (k = "darwin-x64")) as [->|N1].
  { right. split; [simpl; tauto|].
    exists "libwebp_osx", "cwebp", "webpmux". repeat split. }
  destruct (decide (k = "darwin-arm64")) as [->|N2].
  { right. split; [simpl; tauto|].
    exists "libwebp_osx", "cwebp", "webpmux". repeat split. }
  destruct (decide (k = "linux-x64")) as [->|N3].
  { right. split; [simpl; tauto|].
    exists "libwebp_linux", "cwebp", "webpmux". repeat split. }
  destruct (decide (k = "win32-x64")) as [->|N4].
  { right. split; [simpl; tauto|].
    exists "libwebp_win64", "cwebp.exe", "webpmux.exe". repeat split. }
  left. split; [|split].
  - rewrite !lookup_insert_ne by (simpl; congruence). apply lookup_empty.
  - rewrite !lookup_insert_ne by (simpl; congruence). apply lookup_empty.
  - simpl. intros [H|[H|[H|[H|[]]]]]; congruence.
Qed.

Lemma filter_non_empty (l : list string) :
  Forall (fun x => plain_segment x = true) l ->
  List.filter (fun a => negb (is_empty a)) l = l.
Proof.
  induction 1 as [|x l Hx Hl IH]; [reflexivity|]. simpl.
  apply plain_segment_inv in Hx as (Hx & _).
  now rewrite (is_empty_false x Hx), IH.
Qed.

Lemma concat_app_sep (sep : string) (l1 l2 : list string) :
  l1 <> [] -> l2 <> [] ->
  String.concat sep (l1 ++ l2)
  = String.concat sep l1 +:+ sep +:+ String.concat sep l2.
Proof.
  intros H1 H2. induction l1 as [|x l1 IH]; [contradiction|].
  destruct l1 as [|y l1].
  - simpl. destruct l2; [contradiction | reflexivity].
  - change (String.concat sep ((x :: y :: l1) ++ l2))
      with (x +:+ sep +:+ String.concat sep ((y :: l1) ++ l2)).
    rewrite IH by discriminate.
    change (String.concat sep (x :: y :: l1))
      with (x +:+ sep +:+ String.concat sep (y :: l1)).
    now rewrite !append_assoc.
Qed.

Lemma trailingSeparator_join (pre : string) (l : list string) (n : string) :
  plain_segment n = true ->
  trailingSeparator (pre +:+ join "/" (l ++ [n])) = false.
Proof.
  intros Hn. unfold join. rewrite concat_snoc. destruct l.
  - now apply trailingSeparator_app.
  - rewrite <- !append_assoc. now apply trailingSeparator_app.
Qed.

(** Joining a clean absolute directory, "..", and further names drops the
    last directory name and appends the names. *)
Lemma join_paths_up (pre : list string) (d : string) (rest : list string) :
  Forall (fun x => plain_segment x = true) pre ->
  plain_segment d = true ->
  Forall (fun x => plain_segment x = true) rest -> rest <> [] ->
  join_paths (("/" +:+ join "/" (pre ++ [d])) :: ".." :: rest)
  = "/" +:+ join "/" (pre ++ rest).
Proof.
  intros Hpre Hd Hrest Hne.
  assert (Hsep : forall l, Forall (fun x => plain_segment x = true) l ->
                           Forall (fun x => mem sep x = false) l).
  { intros l Hl. eapply List.Forall_impl; [|exact Hl]. intros x Hx.
    now apply plain_segment_inv in Hx as (_ & Hx & _). }
  unfold join_paths.
  change (List.filter _ (("/" +:+ join "/" (pre ++ [d])) :: ".." :: rest))
    with (("/" +:+ join "/" (pre ++ [d])) :: ".."
          :: List.filter (fun a => negb (is_empty a)) rest).
  rewrite (filter_non_empty rest Hrest).
  set (L := (pre ++ [d]) ++ ".." :: rest).
  assert (Hjoin : join "/" (("/" +:+ join "/" (pre ++ [d])) :: ".." :: rest)
                  = "/" +:+ join "/" L).
  { unfold L, join. rewrite (concat_app_sep "/" (pre ++ [d]) (".." :: rest))
      by (try discriminate; now destruct pre).
    change (String.concat "/" (("/" +:+ ?a) :: ?l))
      with (("/" +:+ a) +:+ "/" +:+ String.concat "/" l).
    now rewrite !append_assoc. }
  rewrite Hjoin.
  assert (HL : Forall (fun x => mem sep x = false) L).
  { unfold L. apply Forall_app. split.
    - apply Hsep. apply Forall_app. split; [exact Hpre | now constructor].
    - constructor; [reflexivity | now apply Hsep]. }
  assert (HLne : L <> []) by (unfold L; now destruct pre).
  assert (Hsplit : split_on sep ("/" +:+ join "/" L) = "" :: L).
  { change ("/" +:+ join "/" L)
      with ("" +:+ String sep (join (String sep "") L)).
    now rewrite split_on_app, (split_on_join sep L HLne HL). }
  unfold normalize, normalizeString. rewrite Hsplit.
  change (is_empty ("/" +:+ join "/" L)) with false.
  change (isAbsolute ("/" +:+ join "/" L)) with true. cbv iota.
  change (fold_left (norm_step (negb true)) ("" :: L) [])
    with (fold_left (norm_step false) L []).
  unfold L. rewrite fold_left_app.
  rewrite (fold_norm_step_plain false (pre ++ [d]) [])
    by (apply Forall_app; split; [exact Hpre | now constructor]).
  rewrite app_nil_r, rev_app_distr.
  change (fold_left (norm_step false) (".." :: rest) (rev [d] ++ rev pre))
    with (fold_left (norm_step false) rest
            (norm_step false (d :: rev pre) "..")).
  assert (Hpop : norm_step false (d :: rev pre) ".." = rev pre).
  { unfold norm_step. simpl.
    apply plain_segment_inv in Hd as (_ & _ & _ & Hd).
    apply String.eqb_neq in Hd. now rewrite Hd. }
  rewrite Hpop, (fold_norm_step_plain false rest (rev pre) Hrest).
  rewrite rev_app_distr, !rev_involutive.
  fold L.
  assert (Hres : is_empty (join "/" (pre ++ rest)) = false).
  { destruct pre as [|x pre]; simpl.
    - destruct rest as [|y rest]; [contradiction|].
      inversion Hrest as [|? ? Hy _]; subst.
      apply plain_segment_inv in Hy as (Hy & _).
      unfold join. simpl. destruct rest; destruct y; try congruence;
        reflexivity.
    - inversion Hpre as [|? ? Hx _]; subst.
      apply plain_segment_inv in Hx as (Hx & _).
      unfold join. simpl.
      destruct (pre ++ rest); destruct x; try congruence; reflexivity. }
  rewrite Hres.
  assert (Htr : trailingSeparator ("/" +:+ join "/" L) = false).
  { unfold L. rewrite (app_removelast_last "" Hne).
    change (".." :: removelast rest ++ [List.last rest ""])
      with ((".." :: removelast rest) ++ [List.last rest ""]).
    rewrite app_assoc. apply trailingSeparator_join.
    rewrite (app_removelast_last "" Hne) in Hrest.
    apply Forall_app in Hrest as [_ Hlast].
    now inversion Hlast. }
  now rewrite Htr.
Qed.

End Binaries.

(** X10: the [cwebp] and [webpmux] locators succeed on the same hosts,
    those whose platform key is one of "darwin-x64", "darwin-arm64",
    "linux-x64" and "win32-x64"; on such a host the two binaries lie in
    one directory; neither locator changes the world. *)
Theorem binaries_supported_together (h : host) (w : world) :
  is_ok (getCwebpPath h w).2 = is_ok (getWebpmuxPath h w).2
  /\ (is_ok (getCwebpPath h w).2 = true <->
      In (platform_key h)
         ["darwin-x64"; "darwin-arm64"; "linux-x64"; "win32-x64"])
  /\ (forall sc sm,
        platformConfig !! platform_key h = Some sc ->
        webpmux_platformConfig !! platform_key h = Some sm ->
        sibling_of sc sm)
  /\ (getCwebpPath h w).1 = w /\ (getWebpmuxPath h w).1 = w.
Proof.
  unfold getCwebpPath, getWebpmuxPath.
  destruct (config_cases (platform_key h))
    as [(Hc & Hm & Hnot)|(Hin & lib & tool & mux & Hc & Hm & _)];
    rewrite Hc, Hm; simpl.
  - repeat split; try discriminate. intros Hin. now destruct Hnot.
  - repeat split; auto. now intros sc sm [= <-] [= <-].
Qed.

(** X11: for a source directory given as a clean absolute path, the
    binary is looked for under the package root, the parent of the source
    directory: [<root>/bin/<library>/bin/<tool>], with no ".." left in the
    path. *)
Theorem binary_lies_under_package_root (h : host) (root : list string)
        (src : string) (segs : list string) (w : world) :
  Forall (fun x => Path.plain_segment x = true) root ->
  Path.plain_segment src = true ->
  dirname h = "/" +:+ JsString.join "/" (root ++ [src]) ->
  platformConfig !! platform_key h = Some segs ->
  getCwebpPath h w
  = (w, Ok ("/" +:+ JsString.join "/" (root ++ "bin" :: segs)))
  /\ (forall mux, webpmux_platformConfig !! platform_key h = Some mux ->
        getWebpmuxPath h w
        = (w, Ok ("/" +:+ JsString.join "/" (root ++ "bin" :: mux)))).
Proof.
  intros Hroot Hsrc Hdir Hk.
  unfold getCwebpPath, getWebpmuxPath. rewrite Hk, Hdir.
  destruct (config_cases (platform_key h))
    as [(Hc & _)|(_ & lib & tool & mux & Hc & Hm & Hl & Ht & Hx)];
    [congruence|].
  rewrite Hc in Hk. injection Hk as <-.
  split.
  - unfold ret. f_equal. f_equal.
    apply (join_paths_up root src ("bin" :: [lib; "bin"; tool]));
      [exact Hroot | exact Hsrc | repeat constructor; assumption
       | discriminate].
  - intros mux' Hm'. rewrite Hm' in *. injection Hm as ->.
    unfold ret. f_equal. f_equal.
    apply (join_paths_up root src ("bin" :: [lib; "bin"; mux]));
      [exact Hroot | exact Hsrc | repeat constructor; assumption
       | discriminate].
Qed.

Lemma binary_lies_under_package_root_witness :
  getCwebpPath linux_x64 boot
  = (boot, Ok "/app/node_modules/img-webpify/bin/libwebp_linux/bin/cwebp")
  /\ getWebpmuxPath linux_x64 boot
     = (boot, Ok "/app/node_modules/img-webpify/bin/libwebp_linux/bin/webpmux").
Proof.
  destruct (binary_lies_under_package_root linux_x64
              ["app"; "node_modules"; "img-webpify"] "src"
              ["libwebp_linux"; "bin"; "cwebp"] boot)
    as [Hc Hm].
  - repeat constructor.
  - reflexivity.
  - reflexivity.
  - reflexivity.
  - split; [exact Hc|]. exact (Hm ["libwebp_linux"; "bin"; "webpmux"] eq_refl).
Defined.

(** ** IV.7  Argument lists *)

Section ArgumentFacts.
Import JsString.

(** [split] gives one piece more than there are separators. *)
Lemma split_on_length (c : ascii) (s : string) :
  length (split_on c s) = S (occurrences c s).
Proof.
  induction s as [|x s IH]; [reflexivity|]. simpl.
  destruct (Ascii.eqb x c); simpl; [now rewrite IH|].
  destruct (split_on c s) as [|p ps]; [discriminate | exact IH].
Qed.

Lemma frame_args_length (frames : list frame) :
  length (flat_map (fun f => ["-frame"; path f; offset f]) frames)
  = 3 * length frames.
Proof. induction frames as [|f frames IH]; simpl; [reflexivity | lia]. Qed.

Lemma frame_args_lookup (frames : list frame) (k : nat) (f : frame)
      (tail : list string) :
  frames !! k = Some f ->
  let args := flat_map (fun f => ["-frame"; path f; offset f]) frames ++ tail in
  args !! (3 * k) = Some "-frame"
  /\ args !! (3 * k + 1) = Some (path f)
  /\ args !! (3 * k + 2) = Some (offset f).
Proof.
  revert k. induction frames as [|g frames IH]; intros k Hk; [discriminate|].
  destruct k as [|k].
  - injection Hk as ->. simpl. auto.
  - simpl in Hk. specialize (IH k Hk). cbv zeta in *.
    replace (3 * S k) with (S (S (S (3 * k)))) by lia.
    simpl. exact IH.
Qed.

End ArgumentFacts.

(** X12: [webpmux_animate] hands the tool three arguments per frame, in
    the order of the frames ("-frame", the frame's path, the frame's
    offset), followed by "-loop", the loop count, "-bgcolor", the colour,
    "-o", the output path and the logging argument: [3 n + 7] arguments for
    [n] frames, seven for none. *)
Theorem webpmux_animate_argument_list (input_frames : list frame)
        (output_image loop bgcolor : string) (logging : option string) :
  let args := webpmux_animate_args input_frames output_image loop bgcolor
                                   logging in
  length args = 3 * length input_frames + 7
  /\ (forall k f, input_frames !! k = Some f ->
        args !! (3 * k) = Some "-frame"
        /\ args !! (3 * k + 1) = Some (path f)
        /\ args !! (3 * k + 2) = Some (offset f))
  /\ drop (3 * length input_frames) args
     = ["-loop"; loop; "-bgcolor"; bgcolor; "-o"; output_image;
        default "-quiet" logging].
Proof.
  cbv zeta. unfold webpmux_animate_args. split; [|split].
  - rewrite length_app, frame_args_length. simpl. lia.
  - intros k f Hk. now apply frame_args_lookup.
  - rewrite <- frame_args_length. now rewrite drop_app_length.
Qed.

(** X13: [cwebp], [gwebp] and [dwebp] hand the tool one argument per
    space of the options string plus five; [gwebp] builds the list
    [cwebp] builds; [dwebp] puts the input path first, where the two
    others put it right after the option tokens. *)
Theorem converter_argument_positions
        (input_image output_image opt : string) (logging : option string) :
  let n := S (occurrences " " opt) in
  length (cwebp_args input_image output_image opt logging) = n + 4
  /\ length (dwebp_args input_image output_image opt logging) = n + 4
  /\ gwebp_args input_image output_image opt logging
     = cwebp_args input_image output_image opt logging
  /\ cwebp_args input_image output_image opt logging !! n = Some input_image
  /\ dwebp_args input_image output_image opt logging !! 0 = Some input_image
  /\ cwebp_args input_image output_image opt logging !! (n + 2)
     = Some output_image
  /\ dwebp_args input_image output_image opt logging !! (n + 2)
     = Some output_image.
Proof.
  cbv zeta. unfold cwebp_args, dwebp_args, gwebp_args.
  pose proof (split_on_length " " opt) as Hlen.
  repeat split.
  - rewrite length_app, Hlen. simpl. lia.
  - simpl. rewrite length_app, Hlen. simpl. lia.
  - rewrite lookup_app_r by lia.
    match goal with |- _ !! ?i = _ => now replace i with 0 by lia end.
  - rewrite lookup_app_r by lia.
    match goal with |- _ !! ?i = _ => now replace i with 2 by lia end.
  - simpl. rewrite lookup_app_r by lia.
    match goal with |- _ !! ?i = _ => now replace i with 1 by lia end.
Qed.

(** ** IV.8  [grant_permission] *)

(** X14: [grant_permission] asks the four locators, [cwebp]'s first,
    before it changes any permission: on a platform without a [cwebp]
    entry it throws the unsupported-platform error of [cwebp] and leaves
    the world as it was, whatever the other locators and [chmodSync] would
    do; when a later locator throws, no [chmodSync] has run either. *)
Theorem grant_permission_stops_before_chmod (h : host)
        (dewebp gifwebp : M string) (chmodSync : string -> Z -> M unit)
        (w : world) :
  (platformConfig !! platform_key h = None ->
   grant_permission h dewebp gifwebp chmodSync w
   = (w, Err (unsupported (platform_key h))))
  /\ (forall w1 e,
        is_ok (getCwebpPath h w).2 = true -> dewebp w = (w1, Err e) ->
        grant_permission h dewebp gifwebp chmodSync w = (w1, Err e))
  /\ (forall w1 b w2 e,
        is_ok (getCwebpPath h w).2 = true -> dewebp w = (w1, Ok b) ->
        gifwebp w1 = (w2, Err e) ->
        grant_permission h dewebp gifwebp chmodSync w = (w2, Err e))
  /\ (forall a w1 b w2 c m,
        getCwebpPath h w = (w, Ok a) -> dewebp w = (w1, Ok b) ->
        gifwebp w1 = (w2, Ok c) -> getWebpmuxPath h w2 = (w2, Ok m) ->
        grant_permission h dewebp gifwebp chmodSync w
        = forEach (fun exePath => chmodSync exePath 493%Z) [a; b; c; m] w2).
Proof.
  unfold grant_permission, bind, getCwebpPath.
  split; [|split; [|split]].
  - now intros ->.
  - intros w1 e Hok Hd.
    destruct (platformConfig !! platform_key h); [|discriminate].
    unfold ret. now rewrite Hd.
  - intros w1 b w2 e Hok Hd Hg.
    destruct (platformConfig !! platform_key h); [|discriminate].
    unfold ret. now rewrite Hd, Hg.
  - intros a w1 b w2 c m Ha Hd Hg Hm.
    destruct (platformConfig !! platform_key h); [|discriminate].
    unfold ret in *. injection Ha as <-. now rewrite Hd, Hg, Hm.
Qed.

(** ** IV.9  When the temp directory cannot be resolved *)

(** X15: when the temp directory cannot be resolved the call ends there:
    it rejects with the error of [getTempPath], which was written to the
    console just before, in the world [getTempPath] left; no write, tool,
    read or removal step is made, the identifier drawn is not used. *)
Theorem failed_directory_resolution_ends_the_call (h : host)
        (inputBuffer : list byte) (imageType opt : string)
        (extra_path : jsval) (w : world) (e : error) :
  (getTempPath h extra_path (uuid h w).1).2 = Err e ->
  let out := convertToWebpBuffer h inputBuffer imageType opt extra_path w in
  out = ((getTempPath h extra_path (uuid h w).1).1, Err e)
  /\ (exists before text, trace out.1 = before ++ [EvConsoleError text e])
  /\ List.filter is_step_event (trace out.1)
     = List.filter is_step_event (trace w).
Proof.
  intros He. cbv zeta.
  assert (Hout : convertToWebpBuffer h inputBuffer imageType opt extra_path w
                 = ((getTempPath h extra_path (uuid h w).1).1, Err e)).
  { unfold convertToWebpBuffer, bind at 1. unfold uuid at 1.
    unfold uuid in He. simpl fst in He. unfold bind at 1.
    destruct (getTempPath h extra_path _) as [w1 [v|e']]; simpl in *;
      [discriminate | congruence]. }
  rewrite Hout. split; [reflexivity|]. simpl fst.
  unfold uuid in *. simpl fst in *.
  set (w1 := {| fs := fs w; drawn := S (drawn w); trace := _ |}) in *.
  destruct (targetPath h extra_path) as [| | | | |p] eqn:Ht.
  1-5: unfold getTempPath, bind, try_catch, fs_mkdirSync, bind in *;
       rewrite Ht in *; simpl in *; injection He as <-;
       (split; [eexists _, _; reflexivity|]);
       rewrite !List.filter_app; simpl; now rewrite !app_nil_r.
  rewrite (getTempPath_string h _ _ w1 Ht) in *.
  destruct (Fs.mkdirSync (fs w1) (cwd h) p) as [t [[]|e']]; simpl in *;
    [discriminate|]. injection He as <-.
  split; [eexists _, _; reflexivity|].
  rewrite !List.filter_app. simpl. now rewrite !app_nil_r.
Qed.

Lemma failed_directory_resolution_witness :
  let disk := <[ ["srv"] := Fs.File [] ]> fresh_disk in
  let w := {| fs := disk; drawn := 0; trace := [] |} in
  (convertToWebpBuffer linux_x64 sample_png "png" "-q 80" (VStr "/srv/cache")
                       w).2
  = Err (SystemError ENOTDIR sys_mkdir "/srv/cache")
  /\ List.filter is_step_event
       (trace (convertToWebpBuffer linux_x64 sample_png "png" "-q 80"
                                   (VStr "/srv/cache") w).1) = [].
Proof.
  cbv zeta.
  destruct (failed_directory_resolution_ends_the_call linux_x64 sample_png
              "png" "-q 80" (VStr "/srv/cache")
              {| fs := <[ ["srv"] := Fs.File [] ]> fresh_disk;
                 drawn := 0; trace := [] |}
              (SystemError ENOTDIR sys_mkdir "/srv/cache"))
    as (Hout & _ & Hnone).
  - vm_compute. reflexivity.
  - split; [now rewrite Hout | exact Hnone].
Defined.


